(** * ceres-factors: residual functors of [include/ceres-factors/Factors.h]

    The header defines eight cost functors for the Ceres solver.  Each one is
    a C++ class whose constructor stores a measurement together with the
    inverse of its covariance, whose templated [operator()] computes a
    residual from one or two parameter blocks, and whose static [Create]
    wraps the functor into a [ceres::AutoDiffCostFunction] with the residual
    dimension and the parameter block sizes as template arguments.

    The embedding follows the header class by class.  The template parameter
    [T] of [operator()] is an arbitrary type with the arithmetic of
    [Numeric]; [double] is a second such type [D], and the header's
    [static_cast<T>] / [cast<T>()] is [cast].  The manifold types [SO3<T>] and
    [SE3<T>] come from headers outside the repository ([SO3.h], [SE3.h]) and
    are taken as an interface, [Manifold].

    What holds whatever the arithmetic computes is stated for any [T].
    What depends on the values it computes is proved for [T = double], on
    IEEE 754 binary64 as the primitive floats and their specification
    ([SpecFloat]) give it: rounding, signed zeros, infinities and NaN are
    those of the hardware. *)

From Stdlib Require Import List PeanoNat ZArith Bool Lia.
From Stdlib Require Import Floats.
Import ListNotations.

(** ** Numeric types *)

(** The arithmetic a template argument [T] of the functors has to offer:
    the header uses [+], [-], [*], [/] and, through Eigen's [norm()], the
    square root.  [lt] is the order of the type (C++ [operator<]). *)
Class Numeric (A : Type) : Type := {
  zero : A;
  one : A;
  add : A -> A -> A;
  sub : A -> A -> A;
  mul : A -> A -> A;
  div : A -> A -> A;
  sqrt : A -> A;
  lt : A -> A -> Prop
}.

Declare Scope num_scope.
Delimit Scope num_scope with num.
Notation "x + y" := (add x y) : num_scope.
Notation "x - y" := (sub x y) : num_scope.
Notation "x * y" := (mul x y) : num_scope.
Notation "x / y" := (div x y) : num_scope.

Definition two {A : Type} {NA : Numeric A} : A := add one one.

(** [static_cast<T>(x)] on scalars; Eigen's [cast<T>()] applies it to every
    coefficient. *)
Class Cast (A B : Type) : Type := cast : A -> B.

(** ** Eigen: fixed-size vectors and matrices *)

(** Modelled from the spec: Eigen is outside the repository.  Its
    operations have the meaning the spec gives them: coefficient-wise
    difference, the Euclidean norm, the matrix-vector product of the
    information matrix with the error, and the cast of every coefficient. *)

(** [Matrix<A, n, 1>]: a column of [n] coefficients, first coefficient
    first. *)
Fixpoint vec (A : Type) (n : nat) : Type :=
  match n with
  | O => unit
  | S m => (A * vec A m)%type
  end.

(** [Matrix<A, r, c>], as its [r] rows. *)
Definition mat (A : Type) (r c : nat) : Type := vec (vec A c) r.

Fixpoint vmap {A B : Type} (f : A -> B) {n : nat} : vec A n -> vec B n :=
  match n return vec A n -> vec B n with
  | O => fun _ => tt
  | S m => fun v => (f (fst v), vmap f (snd v))
  end.

Fixpoint vmap2 {A B C : Type} (f : A -> B -> C) {n : nat}
  : vec A n -> vec B n -> vec C n :=
  match n return vec A n -> vec B n -> vec C n with
  | O => fun _ _ => tt
  | S m => fun u v => (f (fst u) (fst v), vmap2 f (snd u) (snd v))
  end.

Fixpoint vconst {A : Type} (a : A) (n : nat) : vec A n :=
  match n return vec A n with
  | O => tt
  | S m => (a, vconst a m)
  end.

(** A test that holds of every coefficient. *)
Fixpoint vforallb {A : Type} (p : A -> bool) {n : nat} : vec A n -> bool :=
  match n return vec A n -> bool with
  | O => fun _ => true
  | S m => fun v => p (fst v) && vforallb p (snd v)
  end.

(** Coefficient accessors [x()], [y()], [z()]. *)
Definition vec_x {A : Type} {n : nat} (v : vec A (S n)) : A := fst v.
Definition vec_y {A : Type} {n : nat} (v : vec A (S (S n))) : A :=
  fst (snd v).
Definition vec_z {A : Type} {n : nat} (v : vec A (S (S (S n)))) : A :=
  fst (snd (snd v)).

(** [segment<m>(n)]-style splitting of a column into head and tail. *)
Fixpoint vapp {A : Type} {n m : nat} : vec A n -> vec A m -> vec A (n + m) :=
  match n return vec A n -> vec A m -> vec A (n + m) with
  | O => fun _ v => v
  | S k => fun u v => (fst u, vapp (snd u) v)
  end.

Fixpoint vhead {A : Type} (n : nat) {m : nat} : vec A (n + m) -> vec A n :=
  match n return vec A (n + m) -> vec A n with
  | O => fun _ => tt
  | S k => fun v => (fst v, vhead k (snd v))
  end.

Fixpoint vtail {A : Type} (n : nat) {m : nat} : vec A (n + m) -> vec A m :=
  match n return vec A (n + m) -> vec A m with
  | O => fun v => v
  | S k => fun v => vtail k (snd v)
  end.

Section EigenArith.
Context {A : Type} {NA : Numeric A}.
Local Open Scope num_scope.

Definition vzero (n : nat) : vec A n := vconst zero n.

(** Coefficient-wise sum and difference of two columns. *)
Definition vadd {n : nat} (u v : vec A n) : vec A n := vmap2 add u v.
Definition vsub {n : nat} (u v : vec A n) : vec A n := vmap2 sub u v.

(** [c * v] for a scalar [c]. *)
Definition vscale {n : nat} (c : A) (v : vec A n) : vec A n :=
  vmap (fun x => c * x) v.


(** [Matrix<A, n, n>::Identity()] *)
Fixpoint midentity (n : nat) : mat A n n :=
  match n return mat A n n with
  | O => tt
  | S m => ((one, vzero m), vmap (fun row => (zero, row)) (midentity m))
  end.

(** [sum()] of a column with at least one coefficient. *)
Fixpoint vsum {n : nat} : vec A (S n) -> A :=
  match n return vec A (S n) -> A with
  | O => fun v => fst v
  | S m => fun v => fst v + vsum (snd v)
  end.

(** [u.dot(v)] = [u.cwiseProduct(v).sum()]. *)
Definition dot {n : nat} (u v : vec A (S n)) : A := vsum (vmap2 mul u v).

(** [squaredNorm()] = [cwiseAbs2().sum()] and [norm()], its square root. *)
Definition squaredNorm {n : nat} (v : vec A (S n)) : A :=
  vsum (vmap (fun x => x * x) v).

Definition norm {n : nat} (v : vec A (S n)) : A := sqrt (squaredNorm v).

(** [M * v]: coefficient [i] is the dot product of row [i] with [v]. *)
Definition matvec {r c : nat} (M : mat A r (S c)) (v : vec A (S c))
  : vec A r :=
  vmap (fun row => dot row v) M.

End EigenArith.

(** [M.cast<T>()] *)
Definition vcast {A B : Type} {C : Cast A B} {n : nat} (v : vec A n)
  : vec B n := vmap cast v.

Definition mcast {A B : Type} {C : Cast A B} {r c : nat} (M : mat A r c)
  : mat B r c := vmap vcast M.

(** [Q.inverse()] lives in Eigen; the functors only store what it returns. *)
Class Inverse (A : Type) : Type :=
  inverse : forall n : nat, mat A n n -> mat A n n.

Arguments inverse {A _} {n} _.

(** ** Parameter blocks and residual buffers *)

(** A [const T *] or [T *] argument: the coefficient found at each offset. *)
Definition ptr (A : Type) : Type := nat -> A.

(** The [n] coefficients at offsets [i], [i+1], ... *)
Fixpoint load_from {A : Type} (n : nat) (p : ptr A) (i : nat) : vec A n :=
  match n return vec A n with
  | O => tt
  | S m => (p i, load_from m p (S i))
  end.

(** Constructing a fixed-size column from a pointer reads its first [n]
    coefficients. *)
Definition load {A : Type} (n : nat) (p : ptr A) : vec A n := load_from n p 0.

(** [p[i] = a] *)
Definition poke {A : Type} (p : ptr A) (i : nat) (a : A) : ptr A :=
  fun k => if Nat.eqb k i then a else p k.

Fixpoint store_from {A : Type} {n : nat} (p : ptr A) (i : nat)
  : vec A n -> ptr A :=
  match n return vec A n -> ptr A with
  | O => fun _ => p
  | S m => fun v => store_from (poke p i (fst v)) (S i) (snd v)
  end.

(** Assigning a column to [Map<Matrix<T, n, 1>> r(_res)] writes offsets
    [0 .. n-1] of [_res]. *)
Definition store {A : Type} {n : nat} (p : ptr A) (v : vec A n) : ptr A :=
  store_from p 0 v.

(** ** The manifold interface ([SO3.h], [SE3.h]) *)

(** Modelled from the spec: the orientation and pose element types are
    external to the header.  Each is constructible from a flat coefficient
    buffer (4 coefficients for an orientation, 7 for a pose made of
    translation and orientation) and supports composition, inversion and a
    tangent-space difference returning a fixed-size vector; a pose also acts
    on a point.  The names follow the C++ operators the header applies. *)
Class Manifold (A : Type) : Type := {
  SO3 : Type;
  SE3 : Type;
  (** the constructors of [SO3<A>] from a pointer and from a 4-vector *)
  SO3_of_array : vec A 4 -> SO3;
  (** the constructors of [SE3<A>] from a pointer and from a 7-vector *)
  SE3_of_array : vec A 7 -> SE3;
  (** [q1 * q2] *)
  SO3_otimes : SO3 -> SO3 -> SO3;
  (** [q + v] *)
  SO3_boxplus : SO3 -> vec A 3 -> SO3;
  (** [q1 - q2] *)
  SO3_boxminus : SO3 -> SO3 -> vec A 3;
  (** [X.inverse()] *)
  SE3_inverse : SE3 -> SE3;
  (** [X1 * X2] *)
  SE3_otimes : SE3 -> SE3 -> SE3;
  (** [X1 - X2] *)
  SE3_boxminus : SE3 -> SE3 -> vec A 6;
  (** [X * p] for a point [p] *)
  SE3_act : SE3 -> vec A 3 -> vec A 3
}.

(** [q.cast<T>()] and [X.cast<T>()] on manifold elements. *)
Class ManifoldCast (A B : Type) {MA : Manifold A} {MB : Manifold B}
  : Type := {
  SO3_cast : @SO3 A MA -> @SO3 B MB;
  SE3_cast : @SE3 A MA -> @SE3 B MB
}.

(** ** Ceres *)

Module ceres.

(** [AutoDiffCostFunction<Functor, kNumResiduals, N0, N1, ...>(functor)]:
    the functor it owns, the number of residuals and the size of each
    parameter block, as given in the template argument list. *)
Record AutoDiffCostFunction (Functor : Type) : Type := {
  functor : Functor;
  num_residuals : nat;
  parameter_block_sizes : list nat
}.

Arguments functor {Functor} _.
Arguments num_residuals {Functor} _.
Arguments parameter_block_sizes {Functor} _.

End ceres.

(** ** The functors *)

(** Every class below has its fields, its constructor [new], the value
    [residual] that [operator()] assigns to the residual buffer, [call] for
    [operator()] itself (returned flag and residual buffer after the call)
    and [Create]. *)

Module SO3Factor.
Section Def.
Context {D T : Type} {NT : Numeric T} {MD : Manifold D} {MT : Manifold T}
  {CDT : Cast D T} {MC : ManifoldCast D T} {ID : Inverse D}.

Record t : Type := { q_ : @SO3 D MD; Q_inv_ : mat D 3 3 }.

Definition new (q_vec : vec D 4) (Q : mat D 3 3) : t :=
  {| q_ := SO3_of_array q_vec; Q_inv_ := inverse Q |}.

(** The error [q_hat - q_.cast<T>()] that [operator()] weights. *)
Definition error (f : t) (_q_hat : ptr T) : vec T 3 :=
  SO3_boxminus (SO3_of_array (load 4 _q_hat)) (SO3_cast (q_ f)).

Definition residual (f : t) (_q_hat : ptr T) : vec T 3 :=
  let q_hat := SO3_of_array (load 4 _q_hat) in
  matvec (mcast (Q_inv_ f)) (SO3_boxminus q_hat (SO3_cast (q_ f))).

Definition call (f : t) (_q_hat _res : ptr T) : bool * ptr T :=
  (true, store _res (residual f _q_hat)).

Definition Create (q_vec : vec D 4) (Q : mat D 3 3)
  : ceres.AutoDiffCostFunction t :=
  {| ceres.functor := new q_vec Q;
     ceres.num_residuals := 3;
     ceres.parameter_block_sizes := [4] |}.

End Def.
End SO3Factor.

Module RelSE3Factor.
Section Def.
Context {D T : Type} {NT : Numeric T} {MD : Manifold D} {MT : Manifold T}
  {CDT : Cast D T} {MC : ManifoldCast D T} {ID : Inverse D}.

Record t : Type := { Xij_ : @SE3 D MD; Q_inv_ : mat D 6 6 }.

Definition new (X_vec : vec D 7) (Q : mat D 6 6) : t :=
  {| Xij_ := SE3_of_array X_vec; Q_inv_ := inverse Q |}.

(** The error [Xi_hat.inverse() * Xj_hat - Xij_.cast<T>()] that
    [operator()] weights. *)
Definition error (f : t) (_Xi_hat _Xj_hat : ptr T) : vec T 6 :=
  SE3_boxminus
    (SE3_otimes (SE3_inverse (SE3_of_array (load 7 _Xi_hat)))
       (SE3_of_array (load 7 _Xj_hat)))
    (SE3_cast (Xij_ f)).

Definition residual (f : t) (_Xi_hat _Xj_hat : ptr T) : vec T 6 :=
  let Xi_hat := SE3_of_array (load 7 _Xi_hat) in
  let Xj_hat := SE3_of_array (load 7 _Xj_hat) in
  matvec (mcast (Q_inv_ f))
    (SE3_boxminus (SE3_otimes (SE3_inverse Xi_hat) Xj_hat)
       (SE3_cast (Xij_ f))).

Definition call (f : t) (_Xi_hat _Xj_hat _res : ptr T) : bool * ptr T :=
  (true, store _res (residual f _Xi_hat _Xj_hat)).

Definition Create (Xij : vec D 7) (Q : mat D 6 6)
  : ceres.AutoDiffCostFunction t :=
  {| ceres.functor := new Xij Q;
     ceres.num_residuals := 6;
     ceres.parameter_block_sizes := [7; 7] |}.

End Def.
End RelSE3Factor.

Module RangeFactor.
Section Def.
Context {D T : Type} {ND : Numeric D} {NT : Numeric T} {CDT : Cast D T}.
Local Open Scope num_scope.

Record t : Type := { rij_ : D; qij_inv_ : D }.

Definition new (rij qij : D) : t :=
  {| rij_ := rij; qij_inv_ := one / qij |}.

Definition residual (f : t) (_Xi_hat _Xj_hat : ptr T) : vec T 1 :=
  let ti_hat := load 3 _Xi_hat in
  let tj_hat := load 3 _Xj_hat in
  (cast (qij_inv_ f) * (cast (rij_ f) - norm (vsub tj_hat ti_hat)), tt).

Definition call (f : t) (_Xi_hat _Xj_hat _res : ptr T) : bool * ptr T :=
  (true, store _res (residual f _Xi_hat _Xj_hat)).

Definition Create (rij qij : D) : ceres.AutoDiffCostFunction t :=
  {| ceres.functor := new rij qij;
     ceres.num_residuals := 1;
     ceres.parameter_block_sizes := [7; 7] |}.

End Def.
End RangeFactor.

Module AltFactor.
Section Def.
Context {D T : Type} {ND : Numeric D} {NT : Numeric T} {CDT : Cast D T}.
Local Open Scope num_scope.

Record t : Type := { hi_ : D; qi_inv_ : D }.

Definition new (hi qi : D) : t :=
  {| hi_ := hi; qi_inv_ := one / qi |}.

Definition residual (f : t) (_Xi_hat : ptr T) : vec T 1 :=
  let hi_hat := _Xi_hat 2 in
  (cast (qi_inv_ f) * (cast (hi_ f) - hi_hat), tt).

Definition call (f : t) (_Xi_hat _res : ptr T) : bool * ptr T :=
  (true, store _res (residual f _Xi_hat)).

Definition Create (hi qi : D) : ceres.AutoDiffCostFunction t :=
  {| ceres.functor := new hi qi;
     ceres.num_residuals := 1;
     ceres.parameter_block_sizes := [7] |}.

End Def.
End AltFactor.

Module TimeSyncAttFactor.
Section Def.
Context {D T : Type} {NT : Numeric T} {MD : Manifold D} {MT : Manifold T}
  {CDT : Cast D T} {MC : ManifoldCast D T} {ID : Inverse D}.

Record t : Type := {
  q_ref_ : @SO3 D MD;
  q_ : @SO3 D MD;
  w_ : vec D 3;
  Q_inv_ : mat D 3 3
}.

Definition new (q_ref_vec q_vec : vec D 4) (w_vec : vec D 3)
  (Q : mat D 3 3) : t :=
  {| q_ref_ := SO3_of_array q_ref_vec;
     q_ := SO3_of_array q_vec;
     w_ := w_vec;
     Q_inv_ := inverse Q |}.

(** The error [q_ref_.cast<T>() - (q_.cast<T>() + *_dt_hat * w_.cast<T>())]
    that [operator()] weights. *)
Definition error (f : t) (_dt_hat : ptr T) : vec T 3 :=
  SO3_boxminus (SO3_cast (q_ref_ f))
    (SO3_boxplus (SO3_cast (q_ f)) (vscale (_dt_hat 0) (vcast (w_ f)))).

Definition residual (f : t) (_dt_hat : ptr T) : vec T 3 :=
  matvec (mcast (Q_inv_ f))
    (SO3_boxminus (SO3_cast (q_ref_ f))
       (SO3_boxplus (SO3_cast (q_ f)) (vscale (_dt_hat 0) (vcast (w_ f))))).

Definition call (f : t) (_dt_hat _res : ptr T) : bool * ptr T :=
  (true, store _res (residual f _dt_hat)).

Definition Create (q_ref_vec q_vec : vec D 4) (w_vec : vec D 3)
  (Q : mat D 3 3) : ceres.AutoDiffCostFunction t :=
  {| ceres.functor := new q_ref_vec q_vec w_vec Q;
     ceres.num_residuals := 3;
     ceres.parameter_block_sizes := [1] |}.

End Def.
End TimeSyncAttFactor.

Module SO3OffsetFactor.
Section Def.
Context {D T : Type} {NT : Numeric T} {MD : Manifold D} {MT : Manifold T}
  {CDT : Cast D T} {MC : ManifoldCast D T} {ID : Inverse D}.

Record t : Type := {
  q_ref_ : @SO3 D MD;
  q_ : @SO3 D MD;
  Q_inv_ : mat D 3 3
}.

Definition new (q_ref_vec q_vec : vec D 4) (Q : mat D 3 3) : t :=
  {| q_ref_ := SO3_of_array q_ref_vec;
     q_ := SO3_of_array q_vec;
     Q_inv_ := inverse Q |}.

(** The error [q_ref_.cast<T>() - (q_.cast<T>() * q_off)] that
    [operator()] weights. *)
Definition error (f : t) (_q_off : ptr T) : vec T 3 :=
  SO3_boxminus (SO3_cast (q_ref_ f))
    (SO3_otimes (SO3_cast (q_ f)) (SO3_of_array (load 4 _q_off))).

Definition residual (f : t) (_q_off : ptr T) : vec T 3 :=
  let q_off := SO3_of_array (load 4 _q_off) in
  matvec (mcast (Q_inv_ f))
    (SO3_boxminus (SO3_cast (q_ref_ f))
       (SO3_otimes (SO3_cast (q_ f)) q_off)).

Definition call (f : t) (_q_off _res : ptr T) : bool * ptr T :=
  (true, store _res (residual f _q_off)).

Definition Create (q_ref_vec q_vec : vec D 4) (Q : mat D 3 3)
  : ceres.AutoDiffCostFunction t :=
  {| ceres.functor := new q_ref_vec q_vec Q;
     ceres.num_residuals := 3;
     ceres.parameter_block_sizes := [4] |}.

End Def.
End SO3OffsetFactor.

Module SE3OffsetFactor.
Section Def.
Context {D T : Type} {NT : Numeric T} {MD : Manifold D} {MT : Manifold T}
  {CDT : Cast D T} {MC : ManifoldCast D T} {ID : Inverse D}.

Record t : Type := {
  T_ref_ : @SE3 D MD;
  T_ : @SE3 D MD;
  Q_inv_ : mat D 6 6
}.

Definition new (T_ref_vec T_vec : vec D 7) (Q : mat D 6 6) : t :=
  {| T_ref_ := SE3_of_array T_ref_vec;
     T_ := SE3_of_array T_vec;
     Q_inv_ := inverse Q |}.

(** The error [T_ref_.cast<T>() - (T_.cast<T>() * T_off)] that
    [operator()] weights. *)
Definition error (f : t) (_T_off : ptr T) : vec T 6 :=
  SE3_boxminus (SE3_cast (T_ref_ f))
    (SE3_otimes (SE3_cast (T_ f)) (SE3_of_array (load 7 _T_off))).

Definition residual (f : t) (_T_off : ptr T) : vec T 6 :=
  let T_off := SE3_of_array (load 7 _T_off) in
  matvec (mcast (Q_inv_ f))
    (SE3_boxminus (SE3_cast (T_ref_ f))
       (SE3_otimes (SE3_cast (T_ f)) T_off)).

Definition call (f : t) (_T_off _res : ptr T) : bool * ptr T :=
  (true, store _res (residual f _T_off)).

Definition Create (T_ref_vec T_vec : vec D 7) (Q : mat D 6 6)
  : ceres.AutoDiffCostFunction t :=
  {| ceres.functor := new T_ref_vec T_vec Q;
     ceres.num_residuals := 6;
     ceres.parameter_block_sizes := [7] |}.

End Def.
End SE3OffsetFactor.

Module SE3ReprojectionFactor.
Section Def.
(** [F] is [float], the coefficient type of [Vector2f] and [Vector3f]. *)
Context {D F T : Type} {NT : Numeric T} {MT : Manifold T}
  {CDT : Cast D T} {CFT : Cast F T}.
Local Open Scope num_scope.

Record t : Type := {
  _img_coords : vec F 2;
  _world_coords : vec F 3;
  _fx : D;
  _fy : D;
  _cx : D;
  _cy : D
}.

Definition new (fx fy cx cy : D) (img_coords : vec F 2)
  (world_coords : vec F 3) : t :=
  {| _img_coords := img_coords;
     _world_coords := world_coords;
     _fx := fx; _fy := fy; _cx := cx; _cy := cy |}.

(** The pinhole projection [proj] of [operator()]. *)
Definition proj (f : t) (camera_coords : vec T 3) : vec T 2 :=
  (cast (_fx f) * vec_x camera_coords / vec_z camera_coords + cast (_cx f),
   (cast (_fy f) * vec_y camera_coords / vec_z camera_coords + cast (_cy f),
    tt)).

Definition camera_coords (f : t) (_H : ptr T) : vec T 3 :=
  let H := SE3_of_array (load 7 _H) in
  SE3_act (SE3_inverse H) (vcast (_world_coords f)).

Definition residual (f : t) (_H : ptr T) : vec T 2 :=
  vsub (vcast (_img_coords f)) (proj f (camera_coords f _H)).

Definition call (f : t) (_H res : ptr T) : bool * ptr T :=
  (true, store res (residual f _H)).

Definition Create (fx fy cx cy : D) (img_coords : vec F 2)
  (world_coords : vec F 3) : ceres.AutoDiffCostFunction t :=
  {| ceres.functor := new fx fy cx cy img_coords world_coords;
     ceres.num_residuals := 2;
     ceres.parameter_block_sizes := [7] |}.

End Def.
End SE3ReprojectionFactor.

(** ** Instances of the interfaces *)

(** When [T] is [double] itself, the casts are the identity. *)
#[global] Instance Cast_id (A : Type) : Cast A A := fun x => x.

(** [double]: IEEE 754 binary64 with the operations of the hardware. *)
#[global] Instance Numeric_double : Numeric float := {|
  zero := 0%float;
  one := 1%float;
  add := PrimFloat.add;
  sub := PrimFloat.sub;
  mul := PrimFloat.mul;
  div := PrimFloat.div;
  sqrt := PrimFloat.sqrt;
  lt := fun x y => PrimFloat.ltb x y = true
|}.

(** The inverse of a diagonal matrix: the reciprocals of the diagonal. *)
Fixpoint diag_inverse {A : Type} {NA : Numeric A} {n : nat}
  : mat A n n -> mat A n n :=
  match n return mat A n n -> mat A n n with
  | O => fun _ => tt
  | S m => fun M =>
      ((div one (fst (fst M)), vzero m),
       vmap (fun row => (zero, row)) (diag_inverse (vmap snd (snd M))))
  end.

(** A realisation of [Manifold] over any numeric type, to have concrete
    functors to evaluate: orientations are quaternions [(w, x, y, z)], poses
    are a translation followed by a quaternion, and the tangent-space maps
    are taken to first order: the difference is twice the vector part of
    the relative quaternion, and [boxplus] composes with [(1, v / 2)]
    without normalising, so that it stays on the unit quaternions for
    [v = 0] only.  [SO3.h] and [SE3.h] themselves are not modelled. *)
Module Quaternion.
Section Model.
Context {A : Type} {NA : Numeric A}.
Local Open Scope num_scope.

Definition neg (a : A) : A := zero - a.

Definition otimes (p q : vec A 4) : vec A 4 :=
  let '(pw, (px, (py, (pz, _)))) := p in
  let '(qw, (qx, (qy, (qz, _)))) := q in
  (pw * qw - px * qx - py * qy - pz * qz,
   (pw * qx + px * qw + py * qz - pz * qy,
    (pw * qy - px * qz + py * qw + pz * qx,
     (pw * qz + px * qy - py * qx + pz * qw, tt)))).

(** The vector part [(x, y, z)] of a quaternion. *)
Definition vecpart (q : vec A 4) : vec A 3 := snd q.

Definition conj (q : vec A 4) : vec A 4 := (fst q, vmap neg (vecpart q)).

Definition rotate (q : vec A 4) (v : vec A 3) : vec A 3 :=
  vecpart (otimes (otimes q (zero, v)) (conj q)).

Definition boxminus (q1 q2 : vec A 4) : vec A 3 :=
  vscale two (vecpart (otimes (conj q2) q1)).

Definition boxplus (q : vec A 4) (v : vec A 3) : vec A 4 :=
  otimes q (one, vscale (one / two) v).

Definition translation (X : vec A 7) : vec A 3 := vhead 3 (m:=4) X.
Definition rotation (X : vec A 7) : vec A 4 := vtail 3 (m:=4) X.

Definition pose (t : vec A 3) (q : vec A 4) : vec A 7 := vapp t q.

Definition pose_inverse (X : vec A 7) : vec A 7 :=
  let q := conj (rotation X) in
  pose (vmap neg (rotate q (translation X))) q.

Definition pose_otimes (X1 X2 : vec A 7) : vec A 7 :=
  pose (vadd (translation X1) (rotate (rotation X1) (translation X2)))
       (otimes (rotation X1) (rotation X2)).

Definition pose_act (X : vec A 7) (p : vec A 3) : vec A 3 :=
  vadd (rotate (rotation X) p) (translation X).

Definition pose_boxminus (X1 X2 : vec A 7) : vec A 6 :=
  let Y := pose_otimes (pose_inverse X2) X1 in
  vapp (n:=3) (m:=3) (translation Y) (vscale two (vecpart (rotation Y))).

#[global] Instance manifold : Manifold A := {|
  SO3 := vec A 4;
  SE3 := vec A 7;
  SO3_of_array := fun v => v;
  SE3_of_array := fun v => v;
  SO3_otimes := otimes;
  SO3_boxplus := boxplus;
  SO3_boxminus := boxminus;
  SE3_inverse := pose_inverse;
  SE3_otimes := pose_otimes;
  SE3_boxminus := pose_boxminus;
  SE3_act := pose_act
|}.

End Model.

#[global] Instance manifold_cast {A B : Type} {NA : Numeric A}
  {NB : Numeric B} {C : Cast A B}
  : @ManifoldCast A B (@manifold A NA) (@manifold B NB) :=
  @Build_ManifoldCast A B (@manifold A NA) (@manifold B NB)
    (@vcast A B C 4) (@vcast A B C 7).

End Quaternion.

(** The stand-in for [Q.inverse()] when the interfaces are instantiated:
    the reciprocals of the diagonal, which is the inverse of a diagonal
    covariance only.  No property below relies on what it returns. *)
#[global] Instance Inverse_diag {A : Type} {NA : Numeric A} : Inverse A :=
  fun n => diag_inverse (n:=n).

(** ** Laws of a numeric type *)

(** The range functor is written for any [T]; what a property of it needs
    of the arithmetic of [T] is named here and assumed where it is used.
    [sub_zero_law] and [sq_sub_law] hold for doubles ([DoubleArith]
    below). *)
Section Laws.
Context (A : Type) {NA : Numeric A}.
Local Open Scope num_scope.

Definition sub_zero_law : Prop := forall x : A, x - zero = x.
Definition sqrt_zero_law : Prop := sqrt (zero : A) = zero.
Definition sq_sub_law : Prop :=
  forall x y : A, (x - y) * (x - y) = (y - x) * (y - x).

End Laws.

(** A double that is an infinity or NaN, in the specification of the
    primitive operations. *)
Definition nonfinite (x : spec_float) : Prop :=
  match x with
  | S754_nan | S754_infinity _ => True
  | _ => False
  end.

(** Two buffers agree on their first [n] coefficients. *)
Definition agree {A : Type} (n : nat) (p p' : ptr A) : Prop :=
  forall i : nat, i < n -> p i = p' i.

(** A buffer holding the coefficients of a list. *)
Definition buffer {A : Type} (d : A) (l : list A) : ptr A :=
  fun i => nth i l d.

(** ** Doubles *)

(** Every coefficient compares equal to zero: it is [+0] or [-0]. *)
Definition is_zero_vector {n : nat} (v : vec float n) : bool :=
  vforallb PrimFloat.is_zero v.

(** Every coefficient is finite: neither an infinity nor NaN. *)
Definition is_finite_vector {n : nat} (v : vec float n) : bool :=
  vforallb PrimFloat.is_finite v.

Definition is_finite_matrix {r c : nat} (M : mat float r c) : bool :=
  vforallb is_finite_vector M.

(** *** Doubling without rounding *)

(** Doubling a double adds one to its exponent, unless the double is
    subnormal or the result overflows.  The tests below say when the
    operands and the result of a product or a sum stay clear of both, in the
    specification of the primitive operations ([SpecFloat]), for a format of
    [prec] digits and largest exponent [emax]. *)












(** ** Concrete functors and buffers *)

(** On doubles. *)
Module DoubleScenario.
Local Open Scope float_scope.

Definition res0 : ptr float := fun _ => 0.
Definition q_id : vec float 4 := (1, (0, (0, (0, tt)))).
Definition X_123 : vec float 7 := (1, (2, (3, (1, (0, (0, (0, tt))))))).


(** Information matrices. *)
Definition M3 : mat float 3 3 :=
  ((1, (2, (3, tt))), ((4, (5, (6, tt))), ((7, (8, (10, tt))), tt))).

Definition M6 : mat float 6 6 :=
  vmap (vmap (fun x => x + 0.5)) (midentity 6).



(** The functors over the quaternion model, measuring the identity
    orientation, the pose [X_123] and, for the time-sync functor, the
    angular rate (0, 0, 2). *)
Definition so3 (M : mat float 3 3) : SO3Factor.t (D:=float) :=
  SO3Factor.Build_t (MD:=Quaternion.manifold) q_id M.

Definition rel_se3 (M : mat float 6 6) : RelSE3Factor.t (D:=float) :=
  RelSE3Factor.Build_t (MD:=Quaternion.manifold) X_123 M.

Definition time_sync (q_ref : vec float 4) (M : mat float 3 3)
  : TimeSyncAttFactor.t (D:=float) :=
  TimeSyncAttFactor.Build_t (MD:=Quaternion.manifold) q_ref q_id
    (0, (0, (2, tt))) M.

Definition so3_offset (q_ref : vec float 4) (M : mat float 3 3)
  : SO3OffsetFactor.t (D:=float) :=
  SO3OffsetFactor.Build_t (MD:=Quaternion.manifold) q_ref q_id M.

Definition se3_offset (X_ref : vec float 7) (M : mat float 6 6)
  : SE3OffsetFactor.t (D:=float) :=
  SE3OffsetFactor.Build_t (MD:=Quaternion.manifold) X_ref X_123 M.

(** A pinhole camera with principal point (320, 240) that observes the
    world point (0, 0, 2) at the principal point. *)
Definition camera (fx fy : float)
  : SE3ReprojectionFactor.t (D:=float) (F:=float) :=
  SE3ReprojectionFactor.new fx fy 320 240 (320, (240, tt)) (0, (0, (2, tt))).




End DoubleScenario.

(** ** Proof tools *)

(** Unfolds the range, altitude and reprojection functors on doubles down
    to the primitive operations. *)
Ltac unfold_double :=
  cbv [RangeFactor.call RangeFactor.residual RangeFactor.new
       RangeFactor.qij_inv_ RangeFactor.rij_
       AltFactor.call AltFactor.residual AltFactor.new AltFactor.qi_inv_
       AltFactor.hi_
       SE3ReprojectionFactor.call SE3ReprojectionFactor.residual
       SE3ReprojectionFactor.proj
       vsub vmap vmap2 vcast vec_x vec_y vec_z vsum squaredNorm norm
       load load_from fst snd
       add sub mul div sqrt zero one Numeric_double cast Cast_id].

(** [agree n p p'] for two buffers given by lists. *)
Tactic Notation "agree_upto" integer(n) :=
  let i := fresh "i" in
  let Hi := fresh "Hi" in
  intros i Hi; do n (destruct i as [|i]; [reflexivity | ]); exfalso; lia.

(** * Properties *)

(** ** Buffers *)

Lemma load_from_agree {A : Type} (n : nat) :
  forall (p p' : ptr A) (i : nat),
    (forall k, i <= k < i + n -> p k = p' k) ->
    load_from n p i = load_from n p' i.
Proof.
  induction n as [|n IH]; intros p p' i H; simpl.
  - reflexivity.
  - f_equal.
    + apply H. lia.
    + apply IH. intros k Hk. apply H. lia.
Qed.

Lemma load_agree {A : Type} {n : nat} {p p' : ptr A} :
  agree n p p' -> load n p = load n p'.
Proof.
  intros H. unfold load. apply load_from_agree.
  intros k Hk. apply H. lia.
Qed.

Lemma store_from_frame {A : Type} (n : nat) :
  forall (p : ptr A) (i : nat) (v : vec A n) (k : nat),
    k < i \/ i + n <= k -> store_from p i v k = p k.
Proof.
  induction n as [|n IH]; intros p i v k H; simpl.
  - reflexivity.
  - rewrite IH by lia. unfold poke.
    destruct (Nat.eqb_spec k i); [lia | reflexivity].
Qed.

(** A store of [n] coefficients leaves every offset from [n] on as it
    was. *)
Lemma store_frame {A : Type} (n : nat) (p : ptr A) (v : vec A n) (k : nat) :
  n <= k -> store p v k = p k.
Proof. intros H. unfold store. apply store_from_frame. lia. Qed.

(** ** Linear algebra over a numeric type *)

Section EigenLaws.
Context {A : Type} {NA : Numeric A}.
Local Open Scope num_scope.

(** The squared norm of [u - v] is that of [v - u]. *)
Lemma squaredNorm_vsub_swap (Hsq : sq_sub_law A) (n : nat)
  (u v : vec A (S n)) :
  squaredNorm (vsub u v) = squaredNorm (vsub v u).
Proof.
  unfold squaredNorm. induction n as [|n IH]; simpl.
  - apply Hsq.
  - rewrite Hsq. f_equal. apply IH.
Qed.

End EigenLaws.

(** ** The functors *)

Section Properties.
Context {D F T : Type} {ND : Numeric D} {NT : Numeric T}
  {MD : Manifold D} {MT : Manifold T} {CDT : Cast D T} {CFT : Cast F T}
  {MC : ManifoldCast D T} {ID : Inverse D}.
Local Open Scope num_scope.

Lemma agree_le {A : Type} {m n : nat} {p p' : ptr A} :
  m <= n -> agree n p p' -> agree m p p'.
Proof. intros Hmn H i Hi. apply H. lia. Qed.

(** C3: each [Create] declares the residual dimension and the parameter
    block sizes of the catalog (3 and [4]; 6 and [7; 7]; 1 and [7; 7]; 1 and
    [7]; 3 and [1]; 3 and [4]; 6 and [7]; 2 and [7]), and the functor it
    wraps reads no coefficient beyond the declared size of a block: blocks
    that agree on the declared size give the same call result. *)
Theorem Create_declares_what_call_reads :
  (forall (q_vec : vec D 4) (Q : mat D 3 3),
      let c := SO3Factor.Create q_vec Q in
      ceres.num_residuals c = 3 /\
      ceres.parameter_block_sizes c = [4] /\
      forall p p' res : ptr T,
        agree 4 p p' ->
        SO3Factor.call (ceres.functor c) p res
        = SO3Factor.call (ceres.functor c) p' res) /\
  (forall (Xij : vec D 7) (Q : mat D 6 6),
      let c := RelSE3Factor.Create Xij Q in
      ceres.num_residuals c = 6 /\
      ceres.parameter_block_sizes c = [7; 7] /\
      forall pi pi' pj pj' res : ptr T,
        agree 7 pi pi' -> agree 7 pj pj' ->
        RelSE3Factor.call (ceres.functor c) pi pj res
        = RelSE3Factor.call (ceres.functor c) pi' pj' res) /\
  (forall rij qij : D,
      let c := RangeFactor.Create rij qij in
      ceres.num_residuals c = 1 /\
      ceres.parameter_block_sizes c = [7; 7] /\
      forall pi pi' pj pj' res : ptr T,
        agree 7 pi pi' -> agree 7 pj pj' ->
        RangeFactor.call (ceres.functor c) pi pj res
        = RangeFactor.call (ceres.functor c) pi' pj' res) /\
  (forall hi qi : D,
      let c := AltFactor.Create hi qi in
      ceres.num_residuals c = 1 /\
      ceres.parameter_block_sizes c = [7] /\
      forall p p' res : ptr T,
        agree 7 p p' ->
        AltFactor.call (ceres.functor c) p res
        = AltFactor.call (ceres.functor c) p' res) /\
  (forall (q_ref_vec q_vec : vec D 4) (w_vec : vec D 3) (Q : mat D 3 3),
      let c := TimeSyncAttFactor.Create q_ref_vec q_vec w_vec Q in
      ceres.num_residuals c = 3 /\
      ceres.parameter_block_sizes c = [1] /\
      forall p p' res : ptr T,
        agree 1 p p' ->
        TimeSyncAttFactor.call (ceres.functor c) p res
        = TimeSyncAttFactor.call (ceres.functor c) p' res) /\
  (forall (q_ref_vec q_vec : vec D 4) (Q : mat D 3 3),
      let c := SO3OffsetFactor.Create q_ref_vec q_vec Q in
      ceres.num_residuals c = 3 /\
      ceres.parameter_block_sizes c = [4] /\
      forall p p' res : ptr T,
        agree 4 p p' ->
        SO3OffsetFactor.call (ceres.functor c) p res
        = SO3OffsetFactor.call (ceres.functor c) p' res) /\
  (forall (T_ref_vec T_vec : vec D 7) (Q : mat D 6 6),
      let c := SE3OffsetFactor.Create T_ref_vec T_vec Q in
      ceres.num_residuals c = 6 /\
      ceres.parameter_block_sizes c = [7] /\
      forall p p' res : ptr T,
        agree 7 p p' ->
        SE3OffsetFactor.call (ceres.functor c) p res
        = SE3OffsetFactor.call (ceres.functor c) p' res) /\
  (forall (fx fy cx cy : D) (img_coords : vec F 2) (world_coords : vec F 3),
      let c := SE3ReprojectionFactor.Create fx fy cx cy img_coords
                 world_coords in
      ceres.num_residuals c = 2 /\
      ceres.parameter_block_sizes c = [7] /\
      forall p p' res : ptr T,
        agree 7 p p' ->
        SE3ReprojectionFactor.call (ceres.functor c) p res
        = SE3ReprojectionFactor.call (ceres.functor c) p' res).
Proof.
  repeat match goal with |- _ /\ _ => split end; intros; subst c;
    (split; [reflexivity | split; [reflexivity | ]]); simpl; intros.
  - unfold SO3Factor.call, SO3Factor.residual.
    rewrite (load_agree H). reflexivity.
  - unfold RelSE3Factor.call, RelSE3Factor.residual.
    rewrite (load_agree H), (load_agree H0). reflexivity.
  - unfold RangeFactor.call, RangeFactor.residual.
    rewrite (load_agree (agree_le (m:=3) (n:=7) ltac:(lia) H)).
    rewrite (load_agree (agree_le (m:=3) (n:=7) ltac:(lia) H0)). reflexivity.
  - unfold AltFactor.call, AltFactor.residual.
    rewrite (H 2) by lia. reflexivity.
  - unfold TimeSyncAttFactor.call, TimeSyncAttFactor.residual.
    rewrite (H 0) by lia. reflexivity.
  - unfold SO3OffsetFactor.call, SO3OffsetFactor.residual.
    rewrite (load_agree H). reflexivity.
  - unfold SE3OffsetFactor.call, SE3OffsetFactor.residual.
    rewrite (load_agree H). reflexivity.
  - unfold SE3ReprojectionFactor.call, SE3ReprojectionFactor.residual,
      SE3ReprojectionFactor.camera_coords.
    rewrite (load_agree H). reflexivity.
Qed.

(** C8: the evaluation operator of every functor returns [true], whatever
    the functor holds and whatever the parameter blocks and the residual
    buffer contain. *)
Theorem call_returns_true :
  (forall (f : SO3Factor.t (D:=D)) (q_hat res : ptr T),
      fst (SO3Factor.call f q_hat res) = true) /\
  (forall (f : RelSE3Factor.t (D:=D)) (Xi_hat Xj_hat res : ptr T),
      fst (RelSE3Factor.call f Xi_hat Xj_hat res) = true) /\
  (forall (f : RangeFactor.t (D:=D)) (Xi_hat Xj_hat res : ptr T),
      fst (RangeFactor.call f Xi_hat Xj_hat res) = true) /\
  (forall (f : AltFactor.t (D:=D)) (Xi_hat res : ptr T),
      fst (AltFactor.call f Xi_hat res) = true) /\
  (forall (f : TimeSyncAttFactor.t (D:=D)) (dt_hat res : ptr T),
      fst (TimeSyncAttFactor.call f dt_hat res) = true) /\
  (forall (f : SO3OffsetFactor.t (D:=D)) (q_off res : ptr T),
      fst (SO3OffsetFactor.call f q_off res) = true) /\
  (forall (f : SE3OffsetFactor.t (D:=D)) (T_off res : ptr T),
      fst (SE3OffsetFactor.call f T_off res) = true) /\
  (forall (f : SE3ReprojectionFactor.t (D:=D) (F:=F)) (H res : ptr T),
      fst (SE3ReprojectionFactor.call f H res) = true).
Proof. repeat split. Qed.

(** C10: the residual of the altitude functor depends on its pose block
    through the coefficient at offset 2 only: two blocks with the same
    coefficient there give the same call result. *)
Theorem AltFactor_reads_offset_2 (f : AltFactor.t (D:=D)) (Xi_hat Xi_hat' res : ptr T) :
  Xi_hat 2 = Xi_hat' 2 ->
  AltFactor.call f Xi_hat res = AltFactor.call f Xi_hat' res.
Proof.
  intros H. unfold AltFactor.call, AltFactor.residual. rewrite H. reflexivity.
Qed.

(** C9: the range functor gives the same result when its two pose blocks
    are exchanged, for every numeric type in which the square of [x - y] is
    the square of [y - x]. *)
Theorem RangeFactor_symmetric (Hsq : sq_sub_law T) (f : RangeFactor.t (D:=D))
  (Xi_hat Xj_hat res : ptr T) :
  RangeFactor.call f Xi_hat Xj_hat res = RangeFactor.call f Xj_hat Xi_hat res.
Proof.
  unfold RangeFactor.call, RangeFactor.residual, norm.
  rewrite (squaredNorm_vsub_swap Hsq). reflexivity.
Qed.

(** C6: when the two translations handed to the range functor coincide
    (and a coordinate minus itself is zero, as it is for every finite
    value), the evaluation gives a result all the same: the norm of the
    difference is zero and the residual is the stored inverse variance times
    the measured range. *)
Theorem RangeFactor_zero_separation
  (Hmul : (zero * zero = (zero : T))%num)
  (Hadd : (zero + zero = (zero : T))%num)
  (Hsqrt : sqrt_zero_law T) (Hsub0 : sub_zero_law T)
  (f : RangeFactor.t (D:=D)) (Xi_hat Xj_hat res : ptr T) :
  load 3 Xi_hat = load 3 Xj_hat ->
  vsub (load 3 Xj_hat) (load 3 Xj_hat) = vzero 3 ->
  norm (vsub (load 3 Xj_hat) (load 3 Xi_hat)) = zero /\
  RangeFactor.call f Xi_hat Xj_hat res
  = (true,
     store (n:=1) res
       (cast (RangeFactor.qij_inv_ f) * cast (RangeFactor.rij_ f), tt)).
Proof.
  intros Eq Ediag.
  assert (N : norm (vsub (load 3 Xj_hat) (load 3 Xi_hat)) = zero).
  { rewrite Eq, Ediag. unfold norm, squaredNorm, vzero. simpl.
    rewrite Hmul, !Hadd. exact Hsqrt. }
  split; [exact N | ].
  unfold RangeFactor.call, RangeFactor.residual.
  rewrite N, Hsub0. reflexivity.
Qed.

End Properties.

(** ** Doubles *)

(** Facts of IEEE 754 arithmetic that hold for every [double], including
    infinities and NaN, derived from the specification of the primitive
    operations. *)
Module DoubleArith.

Section SignSymmetry.
Variables prec emax : Z.

Lemma binary_round_aux_negb (s : bool) (m e : Z) (l : location) :
  binary_round_aux prec emax (negb s) m e l
  = SFopp (binary_round_aux prec emax s m e l).
Proof.
  unfold binary_round_aux.
  destruct (shr_fexp prec emax m e l) as [mrs' e'].
  destruct (shr_fexp prec emax _ e' loc_Exact) as [mrs'' e''].
  destruct (shr_m mrs''); try reflexivity.
  destruct (Z.leb e'' (emax - prec)); reflexivity.
Qed.

Lemma binary_round_negb (s : bool) (m : positive) (e : Z) :
  binary_round prec emax (negb s) m e = SFopp (binary_round prec emax s m e).
Proof.
  unfold binary_round.
  destruct (shl_align m e _) as [mz ez].
  apply binary_round_aux_negb.
Qed.

Lemma binary_normalize_opp (m e : Z) :
  binary_normalize prec emax (- m) e false
  = binary_normalize prec emax m e false
  \/ binary_normalize prec emax (- m) e false
     = SFopp (binary_normalize prec emax m e false).
Proof.
  destruct m as [|p|p]; simpl.
  - left. reflexivity.
  - right. apply (binary_round_negb false).
  - right. rewrite (binary_round_negb false).
    destruct (binary_round prec emax false p e) as [[]|[]| |[] ? ?];
      reflexivity.
Qed.

(** [y - x] is [x - y] or its opposite. *)
Lemma SFsub_swap (x y : spec_float) :
  SFsub prec emax y x = SFsub prec emax x y
  \/ SFsub prec emax y x = SFopp (SFsub prec emax x y).
Proof.
  destruct x as [sx|sx| |sx mx ex], y as [sy|sy| |sy my ey];
    try (destruct sx, sy; simpl; auto; fail);
    try (destruct sx; simpl; auto; fail);
    try (destruct sy; simpl; auto; fail);
    try (simpl; auto; fail).
  simpl. rewrite (Z.min_comm ey ex).
  set (ez := Z.min ex ey).
  set (a := cond_Zopp sx (Z.pos (fst (shl_align mx ex ez)))).
  set (b := cond_Zopp sy (Z.pos (fst (shl_align my ey ez)))).
  replace (b - a)%Z with (- (a - b))%Z by lia.
  apply binary_normalize_opp.
Qed.

Lemma SFmul_opp_opp (z : spec_float) :
  SFmul prec emax (SFopp z) (SFopp z) = SFmul prec emax z z.
Proof. destruct z as [[]|[]| |[] m e]; reflexivity. Qed.

End SignSymmetry.

(** The square of [x - y] is the square of [y - x]. *)
Lemma sq_sub : sq_sub_law float.
Proof.
  intros x y. simpl.
  apply Prim2SF_inj. rewrite !mul_spec, !sub_spec.
  destruct (SFsub_swap prec emax (Prim2SF x) (Prim2SF y)) as [E|E];
    unfold SF64sub; rewrite E.
  - reflexivity.
  - symmetry. apply SFmul_opp_opp.
Qed.

(** [x - 0 = x]. *)
Lemma sub_zero : sub_zero_law float.
Proof.
  intros x. simpl.
  apply Prim2SF_inj. rewrite sub_spec.
  destruct (Prim2SF x) as [s|s| |s m e]; try reflexivity.
  destruct s; reflexivity.
Qed.

Lemma digits2_shift52 (m : positive) :
  (Z.pos (digits2_pos (Pos.mul m 4503599627370496))
   = Z.pos (digits2_pos m) + 52)%Z.
Proof. rewrite Pos.mul_comm. cbn [Pos.mul digits2_pos]. lia. Qed.

Lemma shr_shift52 (m : positive) :
  iter_pos shr_1 52
    {| shr_m := Z.pos (Pos.mul m 4503599627370496);
       shr_r := false; shr_s := false |}
  = {| shr_m := Z.pos m; shr_r := false; shr_s := false |}.
Proof. rewrite Pos.mul_comm. cbn [Pos.mul]. reflexivity. Qed.

(** The product of a finite double with [1 = 2^52 * 2^-52] is rounded to
    itself. *)
Lemma SFmul_one (s : bool) (m : positive) (e : Z) :
  bounded prec emax m e = true ->
  SFmul prec emax (S754_finite s m e)
    (S754_finite false 4503599627370496 (-52))
  = S754_finite s m e.
Proof.
  intros Hb. unfold bounded, canonical_mantissa in Hb.
  apply andb_prop in Hb. destruct Hb as [Hc He].
  apply Z.eqb_eq in Hc.
  unfold SFmul. rewrite Bool.xorb_false_r. unfold binary_round_aux.
  assert (E1 : shr_fexp prec emax (Z.pos (m * 4503599627370496)) (e + -52)
                 loc_Exact
               = ({| shr_m := Z.pos m; shr_r := false; shr_s := false |}, e)).
  { unfold shr_fexp, Zdigits2. rewrite digits2_shift52.
    replace (Z.pos (digits2_pos m) + 52 + (e + -52))%Z
      with (Z.pos (digits2_pos m) + e)%Z by lia.
    rewrite Hc. replace (e - (e + -52))%Z with 52%Z by lia.
    unfold shr. f_equal; [apply shr_shift52 | lia]. }
  rewrite E1. cbn [shr_m loc_of_shr_record round_nearest_even].
  assert (E2 : shr_fexp prec emax (Z.pos m) e loc_Exact
               = ({| shr_m := Z.pos m; shr_r := false; shr_s := false |}, e)).
  { unfold shr_fexp, Zdigits2. rewrite Hc, Z.sub_diag. reflexivity. }
  rewrite E2. cbn [shr_m]. rewrite He. reflexivity.
Qed.

(** [x * 1 = x]. *)
Lemma mul_one (x : float) : PrimFloat.mul x 1 = x.
Proof.
  apply Prim2SF_inj. rewrite mul_spec.
  replace (Prim2SF 1) with (S754_finite false 4503599627370496 (-52))
    by reflexivity.
  pose proof (Prim2SF_valid x) as V.
  destruct (Prim2SF x) as [s|s| |s m e]; try (destruct s; reflexivity).
  - reflexivity.
  - apply SFmul_one. exact V.
Qed.

End DoubleArith.

(** ** The range functor on doubles *)

Section DoubleScenarios.
Local Open Scope float_scope.

(** C5: on doubles, the range functor built from the measured range [r] and
    the variance [q] writes the inverse variance times the measured range
    minus the distance of the two translations.  With pose i at translation
    (0, 0, 0) and pose j at (3, 4, 0) the distance is 5: the functor built
    from the range 5 and the variance 1 writes the residual 0, and the one
    built from the range 6 and any variance [q] writes [1 / q]. *)
Theorem RangeFactor_3_4_5 :
  (forall (r q : float) (Xi_hat Xj_hat res : ptr float),
      RangeFactor.call (RangeFactor.new r q) Xi_hat Xj_hat res
      = (true,
         store (n:=1) res
           ((1 / q) * (r - norm (vsub (load 3 Xj_hat) (load 3 Xi_hat))),
            tt))) /\
  (forall Xi_hat Xj_hat res : ptr float,
      load 3 Xi_hat = (0, (0, (0, tt))) ->
      load 3 Xj_hat = (3, (4, (0, tt))) ->
      norm (vsub (load 3 Xj_hat) (load 3 Xi_hat)) = 5 /\
      RangeFactor.call (RangeFactor.new 5 1) Xi_hat Xj_hat res
      = (true, store (n:=1) res (0, tt)) /\
      (forall q : float,
          RangeFactor.call (RangeFactor.new 6 q) Xi_hat Xj_hat res
          = (true, store (n:=1) res (1 / q, tt)))).
Proof.
  assert (G : forall (r q : float) (Xi_hat Xj_hat res : ptr float),
             RangeFactor.call (RangeFactor.new r q) Xi_hat Xj_hat res
             = (true,
                store (n:=1) res
                  ((1 / q)
                   * (r - norm (vsub (load 3 Xj_hat) (load 3 Xi_hat))),
                   tt))).
  { intros. reflexivity. }
  split; [exact G | ].
  intros Xi_hat Xj_hat res Ei Ej.
  assert (N : norm (vsub (load 3 Xj_hat) (load 3 Xi_hat)) = 5).
  { rewrite Ei, Ej. reflexivity. }
  repeat split.
  - exact N.
  - rewrite G, N. reflexivity.
  - intros q. rewrite G, N.
    replace (6 - 5) with 1 by reflexivity.
    rewrite DoubleArith.mul_one. reflexivity.
Qed.

(** C2, as the header has it: no constructor examines the covariance it
    is given.  For every covariance, invertible or not, the functor is
    constructed and holds whatever [inverse] returned, and for a variance
    [q] the quotient [1 / q]; on doubles that is [+infinity] for the
    variance 0. *)
Theorem constructors_store_unchecked_inverse :
  (forall (D : Type) (ND : Numeric D) (MD : Manifold D) (ID : Inverse D),
      (forall (q_vec : vec D 4) (Q : mat D 3 3),
          SO3Factor.Q_inv_ (SO3Factor.new q_vec Q) = inverse Q) /\
      (forall (X_vec : vec D 7) (Q : mat D 6 6),
          RelSE3Factor.Q_inv_ (RelSE3Factor.new X_vec Q) = inverse Q) /\
      (forall rij qij : D,
          RangeFactor.new rij qij
          = {| RangeFactor.rij_ := rij;
               RangeFactor.qij_inv_ := div one qij |}) /\
      (forall hi qi : D,
          AltFactor.new hi qi
          = {| AltFactor.hi_ := hi; AltFactor.qi_inv_ := div one qi |}) /\
      (forall (q_ref_vec q_vec : vec D 4) (w_vec : vec D 3) (Q : mat D 3 3),
          TimeSyncAttFactor.Q_inv_
            (TimeSyncAttFactor.new q_ref_vec q_vec w_vec Q) = inverse Q) /\
      (forall (q_ref_vec q_vec : vec D 4) (Q : mat D 3 3),
          SO3OffsetFactor.Q_inv_ (SO3OffsetFactor.new q_ref_vec q_vec Q)
          = inverse Q) /\
      (forall (T_ref_vec T_vec : vec D 7) (Q : mat D 6 6),
          SE3OffsetFactor.Q_inv_ (SE3OffsetFactor.new T_ref_vec T_vec Q)
          = inverse Q)) /\
  (forall rij : float,
      RangeFactor.qij_inv_ (RangeFactor.new rij 0) = infinity) /\
  (forall hi : float,
      AltFactor.qi_inv_ (AltFactor.new hi 0) = infinity).
Proof. repeat split. Qed.

(** C2 fails on the header: the range functor is constructed from the
    variance 0, it holds the information [+infinity], and evaluating it
    where the estimate equals the measurement gives NaN. *)
Lemma zero_variance_is_constructed :
  exists f : RangeFactor.t,
    RangeFactor.new 5 0 = f /\
    RangeFactor.qij_inv_ f = infinity /\
    RangeFactor.call f (buffer 0 [0; 0; 0; 1; 0; 0; 0])
      (buffer 0 [3; 4; 0; 1; 0; 0; 0]) (fun _ => 0)
    = (true, store (n:=1) (fun _ => 0) (nan, tt)).
Proof.
  eexists. split; [reflexivity | split; reflexivity].
Qed.

End DoubleScenarios.

(** ** The properties at concrete functors *)

Module DoubleExamples.
Import DoubleScenario.
Local Open Scope float_scope.

Lemma Create_declares_what_call_reads_example :
  SO3Factor.call (ceres.functor (SO3Factor.Create q_id (midentity 3)))
    (buffer 0 [0; 1; 0; 0]) res0
  = SO3Factor.call (ceres.functor (SO3Factor.Create q_id (midentity 3)))
      (buffer 0 [0; 1; 0; 0; 9; 9; 9]) res0 /\
  RelSE3Factor.call
    (ceres.functor (RelSE3Factor.Create X_123 (midentity 6)))
    (buffer 0 [1; 2; 3; 1; 0; 0; 0]) (buffer 0 [2; 4; 7; 0; 1; 0; 0]) res0
  = RelSE3Factor.call
      (ceres.functor (RelSE3Factor.Create X_123 (midentity 6)))
      (buffer 0 [1; 2; 3; 1; 0; 0; 0; 9]) (buffer 0 [2; 4; 7; 0; 1; 0; 0; 8])
      res0 /\
  RangeFactor.call (ceres.functor (RangeFactor.Create 5 2))
    (buffer 0 [1; 2; 3; 1; 0; 0; 0]) (buffer 0 [2; 4; 7; 0; 1; 0; 0]) res0
  = RangeFactor.call (ceres.functor (RangeFactor.Create 5 2))
      (buffer 0 [1; 2; 3; 1; 0; 0; 0; 9]) (buffer 0 [2; 4; 7; 0; 1; 0; 0; 8])
      res0 /\
  AltFactor.call (ceres.functor (AltFactor.Create 10 2))
    (buffer 0 [1; 2; 3; 1; 0; 0; 0]) res0
  = AltFactor.call (ceres.functor (AltFactor.Create 10 2))
      (buffer 0 [1; 2; 3; 1; 0; 0; 0; 9]) res0 /\
  TimeSyncAttFactor.call
    (ceres.functor
       (TimeSyncAttFactor.Create q_id q_id (0, (0, (2, tt))) (midentity 3)))
    (buffer 0 [0.5]) res0
  = TimeSyncAttFactor.call
      (ceres.functor
         (TimeSyncAttFactor.Create q_id q_id (0, (0, (2, tt)))
            (midentity 3)))
      (buffer 0 [0.5; 9]) res0 /\
  SO3OffsetFactor.call
    (ceres.functor (SO3OffsetFactor.Create q_id q_id (midentity 3)))
    (buffer 0 [0; 1; 0; 0]) res0
  = SO3OffsetFactor.call
      (ceres.functor (SO3OffsetFactor.Create q_id q_id (midentity 3)))
      (buffer 0 [0; 1; 0; 0; 9]) res0 /\
  SE3OffsetFactor.call
    (ceres.functor (SE3OffsetFactor.Create X_123 X_123 (midentity 6)))
    (buffer 0 [1; 2; 3; 1; 0; 0; 0]) res0
  = SE3OffsetFactor.call
      (ceres.functor (SE3OffsetFactor.Create X_123 X_123 (midentity 6)))
      (buffer 0 [1; 2; 3; 1; 0; 0; 0; 9]) res0 /\
  SE3ReprojectionFactor.call
    (ceres.functor
       (SE3ReprojectionFactor.Create (F:=float) 500 500 320 240
          (320, (240, tt)) (0, (0, (2, tt)))))
    (buffer 0 [1; 2; 3; 1; 0; 0; 0]) res0
  = SE3ReprojectionFactor.call
      (ceres.functor
         (SE3ReprojectionFactor.Create (F:=float) 500 500 320 240
            (320, (240, tt)) (0, (0, (2, tt)))))
      (buffer 0 [1; 2; 3; 1; 0; 0; 0; 9]) res0.
Proof.
  destruct (Create_declares_what_call_reads (D:=float) (F:=float) (T:=float))
    as (H1 & H2 & H3 & H4 & H5 & H6 & H7 & H8).
  repeat match goal with |- _ /\ _ => split end.
  - apply (H1 q_id (midentity 3)). agree_upto 4.
  - apply (H2 X_123 (midentity 6)); agree_upto 7.
  - apply (H3 5 2); agree_upto 7.
  - apply (H4 10 2). agree_upto 7.
  - apply (H5 q_id q_id (0, (0, (2, tt))) (midentity 3)). agree_upto 1.
  - apply (H6 q_id q_id (midentity 3)). agree_upto 4.
  - apply (H7 X_123 X_123 (midentity 6)). agree_upto 7.
  - apply (H8 500 500 320 240 (320, (240, tt)) (0, (0, (2, tt)))).
    agree_upto 7.
Defined.

Lemma RangeFactor_3_4_5_example :
  norm (vsub (load 3 (buffer 0 [3; 4; 0; 1; 0; 0; 0]))
          (load 3 (buffer 0 [0; 0; 0; 1; 0; 0; 0]))) = 5 /\
  RangeFactor.call (RangeFactor.new 5 1)
    (buffer 0 [0; 0; 0; 1; 0; 0; 0]) (buffer 0 [3; 4; 0; 1; 0; 0; 0]) res0
  = (true, store (n:=1) res0 (0, tt)) /\
  (forall q : float,
      RangeFactor.call (RangeFactor.new 6 q)
        (buffer 0 [0; 0; 0; 1; 0; 0; 0]) (buffer 0 [3; 4; 0; 1; 0; 0; 0]) res0
      = (true, store (n:=1) res0 (1 / q, tt))).
Proof.
  apply (proj2 RangeFactor_3_4_5 (buffer 0 [0; 0; 0; 1; 0; 0; 0])
           (buffer 0 [3; 4; 0; 1; 0; 0; 0]) res0); reflexivity.
Defined.

Lemma RangeFactor_zero_separation_example :
  norm (vsub (load 3 (buffer 0 [1; 2; 3; 0; 1; 0; 0]))
          (load 3 (buffer 0 [1; 2; 3; 1; 0; 0; 0]))) = 0 /\
  RangeFactor.call (RangeFactor.new 5 2)
    (buffer 0 [1; 2; 3; 1; 0; 0; 0]) (buffer 0 [1; 2; 3; 0; 1; 0; 0]) res0
  = (true, store (n:=1) res0 (0.5 * 5, tt)).
Proof.
  refine (RangeFactor_zero_separation (D:=float) (T:=float) _ _ _
            DoubleArith.sub_zero (RangeFactor.new 5 2)
            (buffer 0 [1; 2; 3; 1; 0; 0; 0]) (buffer 0 [1; 2; 3; 0; 1; 0; 0])
            res0 _ _); reflexivity.
Defined.

Lemma RangeFactor_symmetric_example :
  RangeFactor.call (RangeFactor.new 5 2)
    (buffer 0 [1; 2; 3; 1; 0; 0; 0]) (buffer 0 [2; 4; 7; 0; 1; 0; 0]) res0
  = RangeFactor.call (RangeFactor.new 5 2)
      (buffer 0 [2; 4; 7; 0; 1; 0; 0]) (buffer 0 [1; 2; 3; 1; 0; 0; 0]) res0.
Proof.
  apply (RangeFactor_symmetric (D:=float) (T:=float) DoubleArith.sq_sub).
Defined.

Lemma AltFactor_reads_offset_2_example :
  AltFactor.call (AltFactor.new 10 2) (buffer 0 [1; 2; 3; 1; 0; 0; 0]) res0
  = AltFactor.call (AltFactor.new 10 2) (buffer 0 [8; 9; 3; 0; 0; 1; 0]) res0.
Proof.
  apply (AltFactor_reads_offset_2 (D:=float) (T:=float)). reflexivity.
Defined.

End DoubleExamples.

(** * Further properties of the functors *)

(** ** Buffers *)

Lemma load_from_store_from {A : Type} (n : nat) :
  forall (p : ptr A) (i : nat) (v : vec A n),
    load_from n (store_from p i v) i = v.
Proof.
  induction n as [|n IH]; intros p i v; simpl.
  - destruct v. reflexivity.
  - destruct v as [x xs]. simpl. f_equal.
    + rewrite store_from_frame by lia. unfold poke.
      rewrite Nat.eqb_refl. reflexivity.
    + apply IH.
Qed.

(** What a store wrote is what a load of the same size reads back. *)
Lemma load_store {A : Type} (n : nat) (p : ptr A) (v : vec A n) :
  load n (store p v) = v.
Proof. apply load_from_store_from. Qed.

Section MoreProperties.
Context {D F T : Type} {ND : Numeric D} {NT : Numeric T}
  {MD : Manifold D} {MT : Manifold T} {CDT : Cast D T} {CFT : Cast F T}
  {MC : ManifoldCast D T} {ID : Inverse D}.
Local Open Scope num_scope.

(** X1: a call writes its residual into the first coefficients of the
    residual buffer (3, 6, 1, 1, 3, 3, 6 and 2 of them, the declared number
    of residuals) and leaves every later coefficient of the buffer as it
    was. *)
Theorem call_stores_the_residual (res : ptr T) :
  (forall (f : SO3Factor.t (D:=D)) (q_hat : ptr T),
      load 3 (snd (SO3Factor.call f q_hat res)) = SO3Factor.residual f q_hat /\
      forall k, 3 <= k -> snd (SO3Factor.call f q_hat res) k = res k) /\
  (forall (f : RelSE3Factor.t (D:=D)) (Xi_hat Xj_hat : ptr T),
      load 6 (snd (RelSE3Factor.call f Xi_hat Xj_hat res))
      = RelSE3Factor.residual f Xi_hat Xj_hat /\
      forall k,
        6 <= k -> snd (RelSE3Factor.call f Xi_hat Xj_hat res) k = res k) /\
  (forall (f : RangeFactor.t (D:=D)) (Xi_hat Xj_hat : ptr T),
      load 1 (snd (RangeFactor.call f Xi_hat Xj_hat res))
      = RangeFactor.residual f Xi_hat Xj_hat /\
      forall k,
        1 <= k -> snd (RangeFactor.call f Xi_hat Xj_hat res) k = res k) /\
  (forall (f : AltFactor.t (D:=D)) (Xi_hat : ptr T),
      load 1 (snd (AltFactor.call f Xi_hat res)) = AltFactor.residual f Xi_hat /\
      forall k, 1 <= k -> snd (AltFactor.call f Xi_hat res) k = res k) /\
  (forall (f : TimeSyncAttFactor.t (D:=D)) (dt_hat : ptr T),
      load 3 (snd (TimeSyncAttFactor.call f dt_hat res))
      = TimeSyncAttFactor.residual f dt_hat /\
      forall k, 3 <= k -> snd (TimeSyncAttFactor.call f dt_hat res) k = res k) /\
  (forall (f : SO3OffsetFactor.t (D:=D)) (q_off : ptr T),
      load 3 (snd (SO3OffsetFactor.call f q_off res))
      = SO3OffsetFactor.residual f q_off /\
      forall k, 3 <= k -> snd (SO3OffsetFactor.call f q_off res) k = res k) /\
  (forall (f : SE3OffsetFactor.t (D:=D)) (T_off : ptr T),
      load 6 (snd (SE3OffsetFactor.call f T_off res))
      = SE3OffsetFactor.residual f T_off /\
      forall k, 6 <= k -> snd (SE3OffsetFactor.call f T_off res) k = res k) /\
  (forall (f : SE3ReprojectionFactor.t (D:=D) (F:=F)) (H : ptr T),
      load 2 (snd (SE3ReprojectionFactor.call f H res))
      = SE3ReprojectionFactor.residual f H /\
      forall k, 2 <= k -> snd (SE3ReprojectionFactor.call f H res) k = res k).
Proof.
  repeat match goal with
         | |- _ /\ _ => split
         | |- forall _, _ => intro
         end;
    first [exact (load_store _ _ _) | apply store_frame; assumption].
Qed.

(** X2: the range functor reads the translations only: pose blocks that
    agree on their first three coefficients give the same call result,
    whatever their orientation coefficients are. *)
Theorem RangeFactor_ignores_orientation (f : RangeFactor.t (D:=D))
  (Xi_hat Xi_hat' Xj_hat Xj_hat' res : ptr T) :
  agree 3 Xi_hat Xi_hat' -> agree 3 Xj_hat Xj_hat' ->
  RangeFactor.call f Xi_hat Xj_hat res
  = RangeFactor.call f Xi_hat' Xj_hat' res.
Proof.
  intros Hi Hj. unfold RangeFactor.call, RangeFactor.residual.
  rewrite (load_agree Hi), (load_agree Hj). reflexivity.
Qed.

End MoreProperties.

(** ** Doubles that are not finite *)

Module DoubleEdge.

Lemma SFcompare_finite_refl (s : bool) (m : positive) (e : Z) :
  SFcompare (S754_finite s m e) (S754_finite s m e) = Some Eq.
Proof.
  simpl. rewrite Z.compare_refl.
  assert (E : Pos.compare_cont Eq m m = Eq) by apply Pos.compare_refl.
  rewrite E. destruct s; reflexivity.
Qed.

(** [is_finite] in the specification. *)
Lemma is_finite_spec (x : float) :
  PrimFloat.is_finite x
  = match Prim2SF x with
    | S754_nan | S754_infinity _ => false
    | _ => true
    end.
Proof.
  unfold PrimFloat.is_finite, is_nan, is_infinity.
  rewrite !FloatAxioms.eqb_spec, abs_spec.
  replace (Prim2SF infinity) with (S754_infinity false) by reflexivity.
  destruct (Prim2SF x) as [s|s| |s m e].
  - reflexivity.
  - destruct s; reflexivity.
  - reflexivity.
  - unfold SFeqb. rewrite SFcompare_finite_refl. reflexivity.
Qed.

Lemma is_finite_false (x : float) :
  nonfinite (Prim2SF x) -> PrimFloat.is_finite x = false.
Proof.
  rewrite is_finite_spec.
  destruct (Prim2SF x); simpl; intros H; try reflexivity; destruct H.
Qed.

(** A double that compares equal to 0 is [+0] or [-0]. *)
Lemma is_zero_spec (x : float) :
  PrimFloat.is_zero x = true -> exists s, Prim2SF x = S754_zero s.
Proof.
  unfold is_zero. rewrite FloatAxioms.eqb_spec.
  replace (Prim2SF PrimFloat.zero) with (S754_zero false) by reflexivity.
  destruct (Prim2SF x) as [s|s| |s m e]; unfold SFeqb; simpl.
  - intros _. exists s. reflexivity.
  - destruct s; discriminate.
  - discriminate.
  - destruct s; discriminate.
Qed.

(** A quotient by zero is an infinity or NaN. *)
Lemma div_zero_nonfinite (a z : float) :
  PrimFloat.is_zero z = true -> nonfinite (Prim2SF (PrimFloat.div a z)).
Proof.
  intros Hz. destruct (is_zero_spec z Hz) as [s Es].
  rewrite div_spec, Es. destruct (Prim2SF a); exact I.
Qed.

Lemma one_div_zero (z : float) :
  PrimFloat.is_zero z = true ->
  exists s, Prim2SF (PrimFloat.div 1 z) = S754_infinity s.
Proof.
  intros Hz. destruct (is_zero_spec z Hz) as [s Es].
  rewrite div_spec, Es. exists s. reflexivity.
Qed.

Lemma add_nonfinite_l (a c : float) :
  nonfinite (Prim2SF a) -> nonfinite (Prim2SF (PrimFloat.add a c)).
Proof.
  rewrite add_spec.
  destruct (Prim2SF a) as [s|s| |s m e], (Prim2SF c) as [t|t| |t m' e'];
    simpl; try tauto; destruct s, t; simpl; tauto.
Qed.

Lemma sub_nonfinite_r (u b : float) :
  nonfinite (Prim2SF b) -> nonfinite (Prim2SF (PrimFloat.sub u b)).
Proof.
  rewrite sub_spec.
  destruct (Prim2SF b) as [s|s| |s m e], (Prim2SF u) as [t|t| |t m' e'];
    simpl; try tauto; destruct s, t; simpl; tauto.
Qed.

Lemma mul_infinity_nonfinite (a b : float) (s : bool) :
  Prim2SF a = S754_infinity s -> nonfinite (Prim2SF (PrimFloat.mul a b)).
Proof.
  intros E. rewrite mul_spec, E. destruct (Prim2SF b); exact I.
Qed.

(** A finite double minus itself is [+0]; any other double minus itself
    is NaN. *)
Lemma sub_diag_finite (x : float) :
  PrimFloat.is_finite x = true -> PrimFloat.sub x x = 0%float.
Proof.
  rewrite is_finite_spec. intros H.
  apply Prim2SF_inj. rewrite sub_spec.
  replace (Prim2SF 0) with (S754_zero false) by reflexivity.
  destruct (Prim2SF x) as [s|s| |s m e]; try discriminate.
  - destruct s; reflexivity.
  - unfold SF64sub, SFsub. rewrite Z.sub_diag. reflexivity.
Qed.

Lemma sub_diag_nonfinite (x : float) :
  PrimFloat.is_finite x = false -> PrimFloat.sub x x = nan.
Proof.
  rewrite is_finite_spec. intros H.
  apply Prim2SF_inj. rewrite sub_spec.
  replace (Prim2SF nan) with S754_nan by reflexivity.
  destruct (Prim2SF x) as [s|s| |s m e]; try discriminate.
  - destruct s; reflexivity.
  - reflexivity.
Qed.

Lemma add_nan_l (y : float) : PrimFloat.add nan y = nan.
Proof.
  apply Prim2SF_inj. rewrite add_spec.
  replace (Prim2SF nan) with S754_nan by reflexivity. reflexivity.
Qed.

Lemma add_nan_r (x : float) : PrimFloat.add x nan = nan.
Proof.
  apply Prim2SF_inj. rewrite add_spec.
  replace (Prim2SF nan) with S754_nan by reflexivity.
  destruct (Prim2SF x); reflexivity.
Qed.

Lemma sub_nan_r (x : float) : PrimFloat.sub x nan = nan.
Proof.
  apply Prim2SF_inj. rewrite sub_spec.
  replace (Prim2SF nan) with S754_nan by reflexivity.
  destruct (Prim2SF x); reflexivity.
Qed.

Lemma mul_nan_r (x : float) : PrimFloat.mul x nan = nan.
Proof.
  apply Prim2SF_inj. rewrite mul_spec.
  replace (Prim2SF nan) with S754_nan by reflexivity.
  destruct (Prim2SF x); reflexivity.
Qed.

End DoubleEdge.

(** ** Edge cases on doubles *)

Section DoubleEdgeCases.
Local Open Scope float_scope.

(** X3: a range or altitude functor constructed from a variance that
    compares equal to zero never gives a finite residual: whatever the
    measurement and the parameter blocks, the residual is an infinity or
    NaN, and the call still returns [true]. *)
Theorem zero_variance_residual_not_finite (q : float) :
  PrimFloat.is_zero q = true ->
  (forall (r : float) (Xi_hat Xj_hat res : ptr float),
      PrimFloat.is_finite
        (vec_x (RangeFactor.residual (RangeFactor.new r q) Xi_hat Xj_hat))
      = false /\
      fst (RangeFactor.call (RangeFactor.new r q) Xi_hat Xj_hat res) = true) /\
  (forall (h : float) (Xi_hat res : ptr float),
      PrimFloat.is_finite
        (vec_x (AltFactor.residual (AltFactor.new h q) Xi_hat)) = false /\
      fst (AltFactor.call (AltFactor.new h q) Xi_hat res) = true).
Proof.
  intros Hq. destruct (DoubleEdge.one_div_zero q Hq) as [s Es].
  split; intros; (split; [ | reflexivity]);
    apply DoubleEdge.is_finite_false; unfold_double;
    apply (DoubleEdge.mul_infinity_nonfinite _ _ s Es).
Qed.

(** X4: when the third camera coordinate of the world point compares equal
    to zero, both coefficients of the reprojection residual are an infinity
    or NaN, for every intrinsic and every observed image point; the call
    still returns [true]. *)
Theorem zero_depth_residual_not_finite {MT : Manifold float}
  (f : SE3ReprojectionFactor.t (D:=float) (F:=float)) (H res : ptr float) :
  PrimFloat.is_zero (vec_z (SE3ReprojectionFactor.camera_coords f H))
  = true ->
  PrimFloat.is_finite (vec_x (SE3ReprojectionFactor.residual f H)) = false /\
  PrimFloat.is_finite (vec_y (SE3ReprojectionFactor.residual f H)) = false /\
  fst (SE3ReprojectionFactor.call f H res) = true.
Proof.
  intros Hz. unfold vec_z in Hz.
  repeat split; apply DoubleEdge.is_finite_false; unfold_double;
    apply DoubleEdge.sub_nonfinite_r, DoubleEdge.add_nonfinite_l,
      DoubleEdge.div_zero_nonfinite; exact Hz.
Qed.

(** X10: on doubles, when the two translations handed to the range functor
    coincide, the residual is the stored information times the measured
    range if the three coordinates are finite, and NaN if one of them is
    not. *)
Theorem RangeFactor_zero_separation_double (f : RangeFactor.t (D:=float))
  (Xi_hat Xj_hat res : ptr float) :
  load 3 Xi_hat = load 3 Xj_hat ->
  (PrimFloat.is_finite (Xj_hat 0%nat) = true ->
   PrimFloat.is_finite (Xj_hat 1%nat) = true ->
   PrimFloat.is_finite (Xj_hat 2%nat) = true ->
   RangeFactor.call f Xi_hat Xj_hat res
   = (true,
      store (n:=1) res (RangeFactor.qij_inv_ f * RangeFactor.rij_ f, tt))) /\
  ((PrimFloat.is_finite (Xj_hat 0%nat) && PrimFloat.is_finite (Xj_hat 1%nat)
    && PrimFloat.is_finite (Xj_hat 2%nat))%bool = false ->
   RangeFactor.call f Xi_hat Xj_hat res
   = (true, store (n:=1) res (nan, tt))).
Proof.
  intros E. destruct f as [r0 q0].
  unfold RangeFactor.call, RangeFactor.residual. rewrite E.
  split.
  - intros H0 H1 H2. unfold_double.
    rewrite (DoubleEdge.sub_diag_finite _ H0),
      (DoubleEdge.sub_diag_finite _ H1), (DoubleEdge.sub_diag_finite _ H2).
    replace (PrimFloat.sqrt (0 * 0 + (0 * 0 + 0 * 0))) with 0 by reflexivity.
    pose proof (DoubleArith.sub_zero r0) as S0.
    cbv [sub zero Numeric_double] in S0. rewrite S0. reflexivity.
  - intros Hn. unfold_double.
    assert (N : PrimFloat.sqrt
                  ((Xj_hat 0%nat - Xj_hat 0%nat) * (Xj_hat 0%nat - Xj_hat 0%nat)
                   + ((Xj_hat 1%nat - Xj_hat 1%nat)
                      * (Xj_hat 1%nat - Xj_hat 1%nat)
                      + (Xj_hat 2%nat - Xj_hat 2%nat)
                        * (Xj_hat 2%nat - Xj_hat 2%nat))) = nan).
    { destruct (PrimFloat.is_finite (Xj_hat 0%nat)) eqn:F0;
        [destruct (PrimFloat.is_finite (Xj_hat 1%nat)) eqn:F1;
         [destruct (PrimFloat.is_finite (Xj_hat 2%nat)) eqn:F2;
          [discriminate | ] | ] | ].
      - rewrite (DoubleEdge.sub_diag_nonfinite _ F2).
        replace (nan * nan) with nan by reflexivity.
        rewrite !DoubleEdge.add_nan_r. reflexivity.
      - rewrite (DoubleEdge.sub_diag_nonfinite _ F1).
        replace (nan * nan) with nan by reflexivity.
        rewrite DoubleEdge.add_nan_l, DoubleEdge.add_nan_r. reflexivity.
      - rewrite (DoubleEdge.sub_diag_nonfinite _ F0).
        replace (nan * nan) with nan by reflexivity.
        rewrite DoubleEdge.add_nan_l. reflexivity. }
    rewrite N, DoubleEdge.sub_nan_r, DoubleEdge.mul_nan_r. reflexivity.
Qed.

End DoubleEdgeCases.

(** * Zero error and doubled information on doubles *)

(** ** Zeros on doubles *)

(** Products, sums and quotients whose result is a signed zero, and the
    NaN that a zero gives with an infinity. *)
Module DoubleZero.
Import DoubleEdge.

(** On doubles the casts of the header are the identity. *)
Lemma vcast_id {n : nat} (v : vec float n) : vcast (C:=Cast_id float) v = v.
Proof.
  induction n as [|n IH]; [destruct v; reflexivity | destruct v as [a v]].
  unfold vcast in *. cbn [vmap fst snd]. rewrite IH. reflexivity.
Qed.

Lemma mcast_id {r c : nat} (M : mat float r c) :
  mcast (C:=Cast_id float) M = M.
Proof.
  induction r as [|r IH]; [destruct M; reflexivity | destruct M as [row M]].
  unfold mcast in *. cbn [vmap fst snd]. rewrite IH, vcast_id. reflexivity.
Qed.

Lemma is_zero_intro (x : float) (s : bool) :
  Prim2SF x = S754_zero s -> PrimFloat.is_zero x = true.
Proof.
  intros E. unfold is_zero. rewrite FloatAxioms.eqb_spec, E. reflexivity.
Qed.

(** The product of a finite double with a zero is a zero. *)
Lemma mul_finite_zero (a z : float) :
  PrimFloat.is_finite a = true -> PrimFloat.is_zero z = true ->
  PrimFloat.is_zero (PrimFloat.mul a z) = true.
Proof.
  rewrite is_finite_spec. intros Ha Hz.
  destruct (is_zero_spec z Hz) as [s Es].
  destruct (Prim2SF a) as [t|t| |t m e] eqn:Ea; try discriminate.
  - apply (is_zero_intro _ (xorb t s)). rewrite mul_spec, Ea, Es. reflexivity.
  - apply (is_zero_intro _ (xorb t s)). rewrite mul_spec, Ea, Es. reflexivity.
Qed.

(** The product of an infinity or NaN with a zero is NaN. *)
Lemma mul_nonfinite_zero (a z : float) :
  PrimFloat.is_finite a = false -> PrimFloat.is_zero z = true ->
  PrimFloat.mul a z = nan.
Proof.
  rewrite is_finite_spec. intros Ha Hz.
  destruct (is_zero_spec z Hz) as [s Es].
  apply Prim2SF_inj. rewrite mul_spec, Es.
  replace (Prim2SF nan) with S754_nan by reflexivity.
  destruct (Prim2SF a) as [t|t| |t m e]; try discriminate; reflexivity.
Qed.

Lemma add_zero_zero (a b : float) :
  PrimFloat.is_zero a = true -> PrimFloat.is_zero b = true ->
  PrimFloat.is_zero (PrimFloat.add a b) = true.
Proof.
  intros Ha Hb.
  destruct (is_zero_spec a Ha) as [s Es], (is_zero_spec b Hb) as [t Et].
  destruct s, t; eapply is_zero_intro; rewrite add_spec, Es, Et; reflexivity.
Qed.

Lemma dot_zero {n : nat} (row v : vec float (S n)) :
  is_finite_vector row = true ->
  is_zero_vector v = true ->
  PrimFloat.is_zero (dot row v) = true.
Proof.
  induction n as [|n IH]; destruct row as [m row], v as [x v];
    unfold is_finite_vector, is_zero_vector; cbn [vforallb fst snd];
    intros Hr Hv;
    apply andb_prop in Hr; destruct Hr as [Hm Hr];
    apply andb_prop in Hv; destruct Hv as [Hx Hv].
  - apply mul_finite_zero; assumption.
  - change (PrimFloat.is_zero (PrimFloat.add (PrimFloat.mul m x) (dot row v))
            = true).
    apply add_zero_zero; [apply mul_finite_zero; assumption | ].
    apply IH; assumption.
Qed.

Lemma matvec_zero {r c : nat} (M : mat float r (S c)) (v : vec float (S c)) :
  is_finite_matrix M = true ->
  is_zero_vector v = true ->
  is_zero_vector (matvec M v) = true.
Proof.
  intros HM Hv.
  induction r as [|r IH]; [reflexivity | destruct M as [row M]].
  unfold is_finite_matrix in HM. cbn [vforallb fst snd] in HM.
  apply andb_prop in HM.
  destruct HM as [Hrow HM].
  change (PrimFloat.is_zero (dot row v)
          && is_zero_vector (matvec M v) = true).
  rewrite (dot_zero row v Hrow Hv). apply (IH M HM).
Qed.





End DoubleZero.

(** ** Doubling on doubles *)

(** Multiplying by 2 commutes with a rounded product and a rounded sum, as
    long as no operand and no result is subnormal or overflows.  The proof
    follows the rounding of [SpecFloat] for any precision. *)
Module DoubleScaling.
Local Open Scope Z_scope.

Section Scaling.
Variables prec emax : Z.
Hypothesis prec_pos : 0 < prec.














End Scaling.











End DoubleScaling.

(** ** Zero error on doubles *)

Section ZeroError.
Context {MF : Manifold float} {MC : ManifoldCast float float}.
Local Open Scope float_scope.

(** C1, as it holds on doubles: when the estimate equals the stored
    measurement and the manifold difference of the measurement with itself
    is zero, a functor with matrix weighting writes a residual whose
    coefficients all compare equal to zero provided every entry of its
    information matrix is finite.  The range and altitude functors write a
    zero when the measurement and the inverse variance are finite, and NaN
    otherwise.  The reprojection functor writes zeros when the observed
    image point is finite.  For the time-sync functor the estimate is the
    propagated orientation; for the two offset functors the offset composed
    with the measurement gives the measurement and the reference equals the
    measurement. *)
Theorem residual_zero_at_measurement (res : ptr float) :
  (forall (f : SO3Factor.t (D:=float)) (q_hat : ptr float),
      SO3_of_array (load 4 q_hat) = SO3_cast (SO3Factor.q_ f) ->
      is_zero_vector
        (SO3_boxminus (SO3_cast (SO3Factor.q_ f)) (SO3_cast (SO3Factor.q_ f)))
      = true ->
      is_finite_matrix (SO3Factor.Q_inv_ f) = true ->
      is_zero_vector (load 3 (snd (SO3Factor.call f q_hat res))) = true) /\
  (forall (f : RelSE3Factor.t (D:=float)) (Xi_hat Xj_hat : ptr float),
      SE3_otimes (SE3_inverse (SE3_of_array (load 7 Xi_hat)))
        (SE3_of_array (load 7 Xj_hat)) = SE3_cast (RelSE3Factor.Xij_ f) ->
      is_zero_vector
        (SE3_boxminus (SE3_cast (RelSE3Factor.Xij_ f))
           (SE3_cast (RelSE3Factor.Xij_ f))) = true ->
      is_finite_matrix (RelSE3Factor.Q_inv_ f) = true ->
      is_zero_vector (load 6 (snd (RelSE3Factor.call f Xi_hat Xj_hat res)))
      = true) /\
  (forall (f : RangeFactor.t (D:=float)) (Xi_hat Xj_hat : ptr float),
      norm (vsub (load 3 Xj_hat) (load 3 Xi_hat)) = RangeFactor.rij_ f ->
      if PrimFloat.is_finite (RangeFactor.rij_ f)
         && PrimFloat.is_finite (RangeFactor.qij_inv_ f)
      then is_zero_vector
             (load 1 (snd (RangeFactor.call f Xi_hat Xj_hat res))) = true
      else load 1 (snd (RangeFactor.call f Xi_hat Xj_hat res)) = (nan, tt)) /\
  (forall (f : AltFactor.t (D:=float)) (Xi_hat : ptr float),
      Xi_hat 2%nat = AltFactor.hi_ f ->
      if PrimFloat.is_finite (AltFactor.hi_ f)
         && PrimFloat.is_finite (AltFactor.qi_inv_ f)
      then is_zero_vector (load 1 (snd (AltFactor.call f Xi_hat res))) = true
      else load 1 (snd (AltFactor.call f Xi_hat res)) = (nan, tt)) /\
  (forall (f : TimeSyncAttFactor.t (D:=float)) (dt_hat : ptr float),
      SO3_boxplus (SO3_cast (TimeSyncAttFactor.q_ f))
        (vscale (dt_hat 0%nat) (vcast (TimeSyncAttFactor.w_ f)))
      = SO3_cast (TimeSyncAttFactor.q_ref_ f) ->
      is_zero_vector
        (SO3_boxminus (SO3_cast (TimeSyncAttFactor.q_ref_ f))
           (SO3_cast (TimeSyncAttFactor.q_ref_ f))) = true ->
      is_finite_matrix (TimeSyncAttFactor.Q_inv_ f) = true ->
      is_zero_vector (load 3 (snd (TimeSyncAttFactor.call f dt_hat res)))
      = true) /\
  (forall (f : SO3OffsetFactor.t (D:=float)) (q_off : ptr float),
      SO3_otimes (SO3_cast (SO3OffsetFactor.q_ f))
        (SO3_of_array (load 4 q_off)) = SO3_cast (SO3OffsetFactor.q_ f) ->
      SO3OffsetFactor.q_ref_ f = SO3OffsetFactor.q_ f ->
      is_zero_vector
        (SO3_boxminus (SO3_cast (SO3OffsetFactor.q_ f))
           (SO3_cast (SO3OffsetFactor.q_ f))) = true ->
      is_finite_matrix (SO3OffsetFactor.Q_inv_ f) = true ->
      is_zero_vector (load 3 (snd (SO3OffsetFactor.call f q_off res)))
      = true) /\
  (forall (f : SE3OffsetFactor.t (D:=float)) (T_off : ptr float),
      SE3_otimes (SE3_cast (SE3OffsetFactor.T_ f))
        (SE3_of_array (load 7 T_off)) = SE3_cast (SE3OffsetFactor.T_ f) ->
      SE3OffsetFactor.T_ref_ f = SE3OffsetFactor.T_ f ->
      is_zero_vector
        (SE3_boxminus (SE3_cast (SE3OffsetFactor.T_ f))
           (SE3_cast (SE3OffsetFactor.T_ f))) = true ->
      is_finite_matrix (SE3OffsetFactor.Q_inv_ f) = true ->
      is_zero_vector (load 6 (snd (SE3OffsetFactor.call f T_off res)))
      = true) /\
  (forall (f : SE3ReprojectionFactor.t (D:=float) (F:=float))
          (H : ptr float),
      SE3ReprojectionFactor.proj f (SE3ReprojectionFactor.camera_coords f H)
      = vcast (SE3ReprojectionFactor._img_coords f) ->
      is_finite_vector (SE3ReprojectionFactor._img_coords f) = true ->
      is_zero_vector (load 2 (snd (SE3ReprojectionFactor.call f H res)))
      = true).
Proof.
  repeat match goal with |- _ /\ _ => split end.
  - intros f q_hat E Hz Hfin.
    unfold SO3Factor.call. cbn [snd]. rewrite load_store.
    unfold SO3Factor.residual. rewrite E, DoubleZero.mcast_id.
    apply DoubleZero.matvec_zero; assumption.
  - intros f Xi_hat Xj_hat E Hz Hfin.
    unfold RelSE3Factor.call. cbn [snd]. rewrite load_store.
    unfold RelSE3Factor.residual. rewrite E, DoubleZero.mcast_id.
    apply DoubleZero.matvec_zero; assumption.
  - intros f Xi_hat Xj_hat E.
    unfold RangeFactor.call. cbn [snd]. rewrite load_store.
    unfold RangeFactor.residual. rewrite E.
    change (if PrimFloat.is_finite (RangeFactor.rij_ f)
               && PrimFloat.is_finite (RangeFactor.qij_inv_ f)
            then PrimFloat.is_zero
                   (RangeFactor.qij_inv_ f
                    * (RangeFactor.rij_ f - RangeFactor.rij_ f)) && true
                 = true
            else (RangeFactor.qij_inv_ f
                  * (RangeFactor.rij_ f - RangeFactor.rij_ f), tt)
                 = (nan, tt)).
    destruct (PrimFloat.is_finite (RangeFactor.rij_ f)) eqn:Hr.
    + rewrite (DoubleEdge.sub_diag_finite _ Hr).
      destruct (PrimFloat.is_finite (RangeFactor.qij_inv_ f)) eqn:Hq;
        cbn [andb].
      * rewrite (DoubleZero.mul_finite_zero _ 0 Hq); reflexivity.
      * rewrite (DoubleZero.mul_nonfinite_zero _ 0 Hq); reflexivity.
    + cbn [andb]. rewrite (DoubleEdge.sub_diag_nonfinite _ Hr).
      rewrite DoubleEdge.mul_nan_r. reflexivity.
  - intros f Xi_hat E.
    unfold AltFactor.call. cbn [snd]. rewrite load_store.
    unfold AltFactor.residual. rewrite E.
    change (if PrimFloat.is_finite (AltFactor.hi_ f)
               && PrimFloat.is_finite (AltFactor.qi_inv_ f)
            then PrimFloat.is_zero
                   (AltFactor.qi_inv_ f
                    * (AltFactor.hi_ f - AltFactor.hi_ f)) && true
                 = true
            else (AltFactor.qi_inv_ f
                  * (AltFactor.hi_ f - AltFactor.hi_ f), tt)
                 = (nan, tt)).
    destruct (PrimFloat.is_finite (AltFactor.hi_ f)) eqn:Hr.
    + rewrite (DoubleEdge.sub_diag_finite _ Hr).
      destruct (PrimFloat.is_finite (AltFactor.qi_inv_ f)) eqn:Hq;
        cbn [andb].
      * rewrite (DoubleZero.mul_finite_zero _ 0 Hq); reflexivity.
      * rewrite (DoubleZero.mul_nonfinite_zero _ 0 Hq); reflexivity.
    + cbn [andb]. rewrite (DoubleEdge.sub_diag_nonfinite _ Hr).
      rewrite DoubleEdge.mul_nan_r. reflexivity.
  - intros f dt_hat E Hz Hfin.
    unfold TimeSyncAttFactor.call. cbn [snd]. rewrite load_store.
    unfold TimeSyncAttFactor.residual. rewrite E, DoubleZero.mcast_id.
    apply DoubleZero.matvec_zero; assumption.
  - intros f q_off Hid E Hz Hfin.
    unfold SO3OffsetFactor.call. cbn [snd]. rewrite load_store.
    unfold SO3OffsetFactor.residual. rewrite Hid, E, DoubleZero.mcast_id.
    apply DoubleZero.matvec_zero; assumption.
  - intros f T_off Hid E Hz Hfin.
    unfold SE3OffsetFactor.call. cbn [snd]. rewrite load_store.
    unfold SE3OffsetFactor.residual. rewrite Hid, E, DoubleZero.mcast_id.
    apply DoubleZero.matvec_zero; assumption.
  - intros f H E Hfin.
    unfold SE3ReprojectionFactor.call. cbn [snd]. rewrite load_store.
    unfold SE3ReprojectionFactor.residual. rewrite E, DoubleZero.vcast_id.
    unfold is_finite_vector in Hfin.
    destruct (SE3ReprojectionFactor._img_coords f) as [u [v []]].
    cbn [vforallb fst snd] in Hfin.
    apply andb_prop in Hfin. destruct Hfin as [Hu Hv].
    apply andb_prop in Hv. destruct Hv as [Hv _].
    change (PrimFloat.is_zero (u - u) && (PrimFloat.is_zero (v - v) && true)
            = true).
    rewrite (DoubleEdge.sub_diag_finite u Hu),
      (DoubleEdge.sub_diag_finite v Hv).
    reflexivity.
Qed.


End ZeroError.

(** ** Doubling the information on doubles *)

Section Doubling.
Context {MF : Manifold float} {MC : ManifoldCast float float}.
Local Open Scope float_scope.




End Doubling.

(** ** The further properties at concrete functors *)

Module DoubleFurther.
Import DoubleScenario.
Local Open Scope float_scope.

Lemma call_stores_the_residual_example :
  load 1
    (snd (RangeFactor.call (RangeFactor.new 5 2)
            (buffer 0 [1; 2; 3; 1; 0; 0; 0]) (buffer 0 [2; 4; 7; 0; 1; 0; 0])
            (buffer 0 [7; 7; 7; 7; 7; 7; 7; 7])))
  = RangeFactor.residual (RangeFactor.new 5 2)
      (buffer 0 [1; 2; 3; 1; 0; 0; 0]) (buffer 0 [2; 4; 7; 0; 1; 0; 0]) /\
  snd (RangeFactor.call (RangeFactor.new 5 2)
         (buffer 0 [1; 2; 3; 1; 0; 0; 0]) (buffer 0 [2; 4; 7; 0; 1; 0; 0])
         (buffer 0 [7; 7; 7; 7; 7; 7; 7; 7])) 1%nat = 7 /\
  snd (SO3Factor.call (SO3Factor.new q_id (midentity 3))
         (buffer 0 [0; 1; 0; 0]) (buffer 0 [7; 7; 7; 7; 7; 7; 7; 7])) 3%nat
  = 7.
Proof.
  destruct (call_stores_the_residual (D:=float) (F:=float) (T:=float)
              (buffer 0 [7; 7; 7; 7; 7; 7; 7; 7]))
    as (H1 & _ & H3 & _).
  split; [ | split].
  - apply (proj1 (H3 _ _ _)).
  - apply (proj2 (H3 (RangeFactor.new 5 2) (buffer 0 [1; 2; 3; 1; 0; 0; 0])
                    (buffer 0 [2; 4; 7; 0; 1; 0; 0])) 1%nat). lia.
  - apply (proj2 (H1 (SO3Factor.new q_id (midentity 3))
                    (buffer 0 [0; 1; 0; 0])) 3%nat). lia.
Defined.

Lemma RangeFactor_ignores_orientation_example :
  RangeFactor.call (RangeFactor.new 5 2)
    (buffer 0 [1; 2; 3; 1; 0; 0; 0]) (buffer 0 [2; 4; 7; 0; 1; 0; 0]) res0
  = RangeFactor.call (RangeFactor.new 5 2)
      (buffer 0 [1; 2; 3; 0; 0; 1; 0]) (buffer 0 [2; 4; 7; 0; 0; 0; 1]) res0.
Proof.
  apply (RangeFactor_ignores_orientation (D:=float) (T:=float));
    agree_upto 3.
Defined.

Lemma zero_variance_residual_not_finite_example :
  PrimFloat.is_finite
    (vec_x (RangeFactor.residual (RangeFactor.new 5 (-0))
              (buffer 0 [1; 2; 3; 1; 0; 0; 0])
              (buffer 0 [2; 4; 7; 0; 1; 0; 0]))) = false /\
  PrimFloat.is_finite
    (vec_x (AltFactor.residual (AltFactor.new 10 (-0))
              (buffer 0 [1; 2; 3; 1; 0; 0; 0]))) = false.
Proof.
  destruct (zero_variance_residual_not_finite (-0) eq_refl) as (A & B).
  split.
  - apply (proj1 (A 5 (buffer 0 [1; 2; 3; 1; 0; 0; 0])
                    (buffer 0 [2; 4; 7; 0; 1; 0; 0]) res0)).
  - apply (proj1 (B 10 (buffer 0 [1; 2; 3; 1; 0; 0; 0]) res0)).
Defined.

Lemma zero_depth_residual_not_finite_example :
  PrimFloat.is_finite
    (vec_x (SE3ReprojectionFactor.residual
              (SE3ReprojectionFactor.new (F:=float) 500 500 320 240
                 (320, (240, tt)) (1, (1, (0, tt))))
              (buffer 0 [0; 0; 0; 1; 0; 0; 0]))) = false /\
  PrimFloat.is_finite
    (vec_y (SE3ReprojectionFactor.residual
              (SE3ReprojectionFactor.new (F:=float) 500 500 320 240
                 (320, (240, tt)) (1, (1, (0, tt))))
              (buffer 0 [0; 0; 0; 1; 0; 0; 0]))) = false.
Proof.
  assert (Hz : PrimFloat.is_zero
                 (vec_z (SE3ReprojectionFactor.camera_coords
                           (SE3ReprojectionFactor.new (F:=float) 500 500 320
                              240 (320, (240, tt)) (1, (1, (0, tt))))
                           (buffer 0 [0; 0; 0; 1; 0; 0; 0]))) = true)
    by (vm_compute; reflexivity).
  destruct (zero_depth_residual_not_finite
              (SE3ReprojectionFactor.new (F:=float) 500 500 320 240
                 (320, (240, tt)) (1, (1, (0, tt))))
              (buffer 0 [0; 0; 0; 1; 0; 0; 0]) res0 Hz)
    as (A & B & _).
  split; assumption.
Defined.

Lemma RangeFactor_zero_separation_double_example :
  RangeFactor.call (RangeFactor.new 5 2)
    (buffer 0 [1; 2; 3; 1; 0; 0; 0]) (buffer 0 [1; 2; 3; 0; 1; 0; 0]) res0
  = (true, store (n:=1) res0 (0.5 * 5, tt)) /\
  RangeFactor.call (RangeFactor.new 5 2)
    (buffer 0 [infinity; 2; 3; 1; 0; 0; 0])
    (buffer 0 [infinity; 2; 3; 0; 1; 0; 0]) res0
  = (true, store (n:=1) res0 (nan, tt)).
Proof.
  split.
  - refine (proj1 (RangeFactor_zero_separation_double (RangeFactor.new 5 2)
                     (buffer 0 [1; 2; 3; 1; 0; 0; 0])
                     (buffer 0 [1; 2; 3; 0; 1; 0; 0]) res0 _) _ _ _);
      reflexivity.
  - refine (proj2 (RangeFactor_zero_separation_double (RangeFactor.new 5 2)
                     (buffer 0 [infinity; 2; 3; 1; 0; 0; 0])
                     (buffer 0 [infinity; 2; 3; 0; 1; 0; 0]) res0 _) _);
      reflexivity.
Defined.

End DoubleFurther.

(** ** Zero error and doubling at concrete functors *)

Module DoubleCases.
Import DoubleScenario.
Local Open Scope float_scope.

(** C1 fails on doubles for an information that is not finite: the
    altitude functor is built from the measurement 10 and the smallest
    positive variance, [2^-1074]: the inverse variance overflows to
    infinity, and at the estimate 10 the residual is NaN, not zero. *)
Lemma tiny_variance_residual_is_nan :
  buffer 0 [0; 0; 10; 1; 0; 0; 0] 2%nat
  = AltFactor.hi_ (AltFactor.new 10 0x1p-1074) /\
  AltFactor.qi_inv_ (AltFactor.new 10 0x1p-1074) = infinity /\
  load 1 (snd (AltFactor.call (T:=float) (AltFactor.new 10 0x1p-1074)
                 (buffer 0 [0; 0; 10; 1; 0; 0; 0]) res0))
  = (nan, tt) /\
  is_zero_vector
    (load 1 (snd (AltFactor.call (T:=float) (AltFactor.new 10 0x1p-1074)
                    (buffer 0 [0; 0; 10; 1; 0; 0; 0]) res0)))
  = false.
Proof. repeat split; vm_compute; reflexivity. Qed.



(** C1 at concrete functors over the quaternion model, with unit
    quaternions throughout. *)
Lemma residual_zero_at_measurement_example :
  is_zero_vector
    (load 3 (snd (SO3Factor.call (T:=float) (so3 M3)
                    (buffer 0 [1; 0; 0; 0]) res0))) = true /\
  is_zero_vector
    (load 6 (snd (RelSE3Factor.call (T:=float) (rel_se3 M6)
                    (buffer 0 [1; 2; 3; 1; 0; 0; 0])
                    (buffer 0 [2; 4; 6; 1; 0; 0; 0]) res0))) = true /\
  is_zero_vector
    (load 1 (snd (RangeFactor.call (T:=float) (RangeFactor.new 5 2)
                    (buffer 0 [0; 0; 0; 1; 0; 0; 0])
                    (buffer 0 [3; 4; 0; 1; 0; 0; 0]) res0))) = true /\
  load 1 (snd (AltFactor.call (T:=float) (AltFactor.new 10 0)
                 (buffer 0 [0; 0; 10; 1; 0; 0; 0]) res0)) = (nan, tt) /\
  is_zero_vector
    (load 3 (snd (TimeSyncAttFactor.call (T:=float) (time_sync q_id M3)
                    (buffer 0 [0]) res0))) = true /\
  is_zero_vector
    (load 3 (snd (SO3OffsetFactor.call (T:=float) (so3_offset q_id M3)
                    (buffer 0 [1; 0; 0; 0]) res0))) = true /\
  is_zero_vector
    (load 6 (snd (SE3OffsetFactor.call (T:=float) (se3_offset X_123 M6)
                    (buffer 0 [0; 0; 0; 1; 0; 0; 0]) res0))) = true /\
  is_zero_vector
    (load 2 (snd (SE3ReprojectionFactor.call (T:=float) (camera 500 500)
                    (buffer 0 [0; 0; 0; 1; 0; 0; 0]) res0))) = true.
Proof.
  destruct (residual_zero_at_measurement (MF:=Quaternion.manifold)
              (MC:=Quaternion.manifold_cast) res0)
    as (H1 & H2 & H3 & H4 & H5 & H6 & H7 & H8).
  split; [ | split; [ | split; [ | split; [ | split; [ | split;
    [ | split]]]]]].
  - apply (H1 (so3 M3)); reflexivity.
  - apply (H2 (rel_se3 M6)); reflexivity.
  - refine (H3 (RangeFactor.new 5 2) (buffer 0 [0; 0; 0; 1; 0; 0; 0])
              (buffer 0 [3; 4; 0; 1; 0; 0; 0]) _).
    vm_compute. reflexivity.
  - refine (H4 (AltFactor.new 10 0) (buffer 0 [0; 0; 10; 1; 0; 0; 0]) _).
    reflexivity.
  - apply (H5 (time_sync q_id M3)); reflexivity.
  - apply (H6 (so3_offset q_id M3)); reflexivity.
  - apply (H7 (se3_offset X_123 M6)); reflexivity.
  - apply (H8 (camera 500 500)); reflexivity.
Defined.




End DoubleCases.
